(** * Model selection, schema extraction and catalog fallback of the image agent

    A shallow embedding of the deterministic core of the agent:
    - [extractSimplifiedSchema] (replicate-models.service.js, models.routes.js),
    - the two [detectCapabilities] classifiers (service and routes),
    - [getImageModels] with its cache and fallback list,
    - the schema-aware validation of [executeGenerateImage] and the
      reference-image step of [generateImage],
    - [scoreModel] and [filterAndScoreModels] (model-filter service),
    - [getModelById], [searchModels], [clearCache] and the size lookup of
      [getDimensions],
    - [executeGenerateImage] and [generateImage] up to the call of the
      provider,
    - the keyword classifiers [isImageGenerationModel] and [extractStrengths],
    - [estimateInferenceTime], [estimateCostTier] and [extractTags] of the
      routes.

    Conventions.  JavaScript values read from JSON are [JsValue]s.  A
    string is the UTF-8 encoding of the JavaScript string: equality and
    [includes] on the bytes are those on the characters, [codeUnits] is
    the length in UTF-16 code units, and white space is the white space
    of the language in that encoding.  [toLowerCase] folds the ASCII
    letters; where the folding of other letters decides, in scoring and
    in search, [String.prototype.toLowerCase] enters as a section
    variable, as [Math.log10], [JSON.stringify] and
    [calculateDimensionsFromAspectRatio] do.  The scores of the filter
    service are doubles, added and compared in binary64 arithmetic; a run
    count is a natural number.  The numbers inside a [JsValue] and the
    reference count of a read are exact rationals.  A read of the catalog
    meets a [World]: the clock at the validity check, the outcome of the
    fetch and the clock at the store. *)

From Stdlib Require Import Ascii String QArith Lqa DecimalString Floats.
From stdpp Require Import gmap strings list fin_maps sorting.

Local Open Scope string_scope.
Set Warnings "-register-all".

(** ** JavaScript values and the operations the code applies to them *)

(** A value as [JSON.parse] or the provider's client hands it over.  The
    fields of an object are listed in the order [Object.entries] visits
    them. *)
Inductive JsValue : Type :=
| JUndefined
| JNull
| JBool (b : bool)
| JNum (q : Q)
| JStr (s : string)
| JArr (items : list JsValue)
| JObj (fields : list (string * JsValue)).

(** What a [throw] carries; only [TypeError]s arise in the modelled code
    besides the [Error]s the services raise themselves. *)
Inductive JsError : Type :=
| TypeError (what : string)
| Error (message : string).

(** Completion of an evaluation: a value, or an exception. *)
Inductive Completion (A : Type) : Type :=
| Normal (a : A)
| Throw (e : JsError).
Arguments Normal {A} a.
Arguments Throw {A} e.

Definition bindC {A B} (c : Completion A) (k : A -> Completion B) : Completion B :=
  match c with
  | Normal a => k a
  | Throw e => Throw e
  end.

#[global] Instance Completion_bind : MBind Completion := fun A B k c => bindC c k.

(** ToBoolean. *)
Definition truthy (v : JsValue) : bool :=
  match v with
  | JUndefined | JNull => false
  | JBool b => b
  | JNum q => negb (Qeq_bool q 0)
  | JStr s => negb (String.eqb s "")
  | JArr _ | JObj _ => true
  end.

(** [a || b]. *)
Definition orElse (a b : JsValue) : JsValue := if truthy a then a else b.

Fixpoint assoc (k : string) (fields : list (string * JsValue)) : JsValue :=
  match fields with
  | [] => JUndefined
  | (k', v) :: rest => if String.eqb k k' then v else assoc k rest
  end.

(** [v.k] for a data property name [k] (not an index, not a built-in member):
    a [TypeError] on [null] and [undefined], the field of an object, and
    [undefined] on every other value. *)
Definition getProp (v : JsValue) (k : string) : Completion JsValue :=
  match v with
  | JUndefined | JNull => Throw (TypeError ("Cannot read properties of null or undefined: " +:+ k))
  | JObj fields => Normal (assoc k fields)
  | _ => Normal JUndefined
  end.

(** [v?.k]. *)
Definition optProp (v : JsValue) (k : string) : JsValue :=
  match v with
  | JObj fields => assoc k fields
  | _ => JUndefined
  end.

(** ASCII case folding: what [String.prototype.toLowerCase] does to a
    string of ASCII characters.  The extractor and the keyword classifiers
    look for ASCII words in the folded text; where the folding of other
    letters decides, in scoring and in search, the function of the runtime
    enters as a section variable. *)
Definition lowerAscii (c : ascii) : ascii :=
  let n := nat_of_ascii c in
  if (65 <=? n)%nat && (n <=? 90)%nat then ascii_of_nat (n + 32) else c.

Fixpoint toLowerCase (s : string) : string :=
  match s with
  | EmptyString => EmptyString
  | String c rest => String (lowerAscii c) (toLowerCase rest)
  end.

(** [s.includes(sub)]. *)
Fixpoint includes (s sub : string) : bool :=
  String.prefix sub s ||
  match s with
  | EmptyString => false
  | String _ rest => includes rest sub
  end.

(** Strict equality with a string literal. *)
Definition isStr (v : JsValue) (s : string) : bool :=
  match v with
  | JStr t => String.eqb t s
  | _ => false
  end.

(** [arr.includes(s)] for a string [s]. *)
Definition arrayIncludesStr (items : list JsValue) (s : string) : bool :=
  existsb (fun v => isStr v s) items.

Definition indexKey (n : nat) : string := NilEmpty.string_of_uint (Nat.to_uint n).

Fixpoint charEntries (n : nat) (s : string) : list (string * JsValue) :=
  match s with
  | EmptyString => []
  | String c rest => (indexKey n, JStr (String c EmptyString)) :: charEntries (S n) rest
  end.

(** [Object.entries(v)] for a truthy [v]. *)
Definition objectEntries (v : JsValue) : list (string * JsValue) :=
  match v with
  | JObj fields => fields
  | JArr items => imap (fun i x => (indexKey i, x)) items
  | JStr s => charEntries 0 s
  | _ => []
  end.

(** A number written as an integer, as a double: the nearest one. *)
Definition numberOfZ (z : Z) : float := SF2Prim (binary_normalize prec emax z 0 false).

(** The names every object inherits from [Object.prototype]: a lookup
    under one of them finds a value also where the object has no such
    property of its own. *)
Definition inheritedMember (key : string) : bool :=
  bool_decide (key ∈ ["constructor"; "toString"; "toLocaleString"; "valueOf";
                      "hasOwnProperty"; "isPrototypeOf"; "propertyIsEnumerable";
                      "__proto__"; "__defineGetter__"; "__defineSetter__";
                      "__lookupGetter__"; "__lookupSetter__"]).

(** ** Schema extractor *)

(** One entry of the simplified schema ([paramInfo]).  A flag the code only
    ever sets to [true] is [false] when the field is absent. *)
Record ParamInfo : Type := mkParamInfo {
  type_ : JsValue;
  description : JsValue;
  required : bool;
  options : option (list JsValue);
  default_ : option JsValue;
  format : option JsValue;
  isImageInput : bool;
  isMask : bool;
  optionalForReferenceImages : bool
}.

(** [required.includes(key)]: an array or a string has the method, other
    values do not. *)
Definition requiredIncludes (required : JsValue) (key : string) : Completion bool :=
  match required with
  | JArr items => Normal (arrayIncludesStr items key)
  | JStr s => Normal (includes s key)
  | _ => Throw (TypeError "required.includes is not a function")
  end.

(** [value.allOf.map(item => item.type)]. *)
Fixpoint mapItemType (items : list JsValue) : Completion (list JsValue) :=
  match items with
  | [] => Normal []
  | item :: rest =>
      t ← getProp item "type";
      ts ← mapItemType rest;
      Normal (t :: ts)
  end.

(** [value.allOf.map(item => item.type).filter(Boolean)]. *)
Definition allOfTypes (allOf : JsValue) : Completion (list JsValue) :=
  match allOf with
  | JArr items => ts ← mapItemType items; Normal (filter (fun t => truthy t = true) ts)
  | _ => Throw (TypeError "value.allOf.map is not a function")
  end.

(** [desc && desc.toLowerCase().includes(word)], as a condition. *)
Definition descriptionMentions (desc : JsValue) (word : string) : Completion bool :=
  if truthy desc then
    match desc with
    | JStr d => Normal (includes (toLowerCase d) word)
    | _ => Throw (TypeError "value.description.toLowerCase is not a function")
    end
  else Normal false.

(** The body of the loop of [extractSimplifiedSchema] for one property. *)
Definition paramInfoOf (required : JsValue) (key : string) (value : JsValue)
  : Completion ParamInfo :=
  vtype ← getProp value "type";
  vdesc ← getProp value "description";
  req ← requiredIncludes required key;
  venum ← getProp value "enum";
  let opts := match venum with JArr items => Some items | _ => None end in
  vdefault ← getProp value "default";
  let dflt := match vdefault with JUndefined => None | d => Some d end in
  vformat ← getProp value "format";
  let fmt := if truthy vformat then Some vformat else None in
  vallOf ← getProp value "allOf";
  ty ← (if truthy vallOf then
           ts ← allOfTypes vallOf;
           Normal (match ts with t :: _ => t | [] => orElse vtype (JStr "string") end)
         else Normal (orElse vtype (JStr "string")));
  isImageParam ←
    (if includes (toLowerCase key) "image" then Normal true
     else if isStr vformat "uri" then Normal true
     else descriptionMentions vdesc "image");
  isMaskParam ←
    (if String.eqb (toLowerCase key) "mask" then Normal true
     else if includes (toLowerCase key) "mask" then Normal true
     else descriptionMentions vdesc "mask for inpainting");
  Normal {| type_ := ty;
            description := orElse vdesc (JStr "");
            required := req;
            options := opts;
            default_ := dflt;
            format := fmt;
            isImageInput := isImageParam;
            isMask := isMaskParam;
            optionalForReferenceImages := isMaskParam |}.

(** [simplified[key] = paramInfo]: a new or overwritten own property,
    except under the key "__proto__", where the assignment reaches the
    prototype setter of the object literal and adds no property. *)
Definition assignParam (key : string) (p : ParamInfo)
    (simplified : gmap string ParamInfo) : gmap string ParamInfo :=
  if String.eqb key "__proto__" then simplified else <[key := p]> simplified.

(** The [for ... of Object.entries(properties)] loop: [simplified] is the
    object under construction; a throw leaves it as it is at that point. *)
Fixpoint extractLoop (required : JsValue) (entries : list (string * JsValue))
    (simplified : gmap string ParamInfo) : gmap string ParamInfo * Completion unit :=
  match entries with
  | [] => (simplified, Normal tt)
  | (key, value) :: rest =>
      match paramInfoOf required key value with
      | Normal p => extractLoop required rest (assignParam key p simplified)
      | Throw e => (simplified, Throw e)
      end
  end.

(** [modelSchema?.openapi_schema?.components?.schemas?.Input]. *)
Definition inputSection (modelSchema : JsValue) : JsValue :=
  optProp (optProp (optProp (optProp modelSchema "openapi_schema") "components") "schemas") "Input".

(** The [try] block of [extractSimplifiedSchema], run on the local [simplified]. *)
Definition extractBody (modelSchema : JsValue) (simplified : gmap string ParamInfo)
  : gmap string ParamInfo * Completion unit :=
  let properties := optProp (inputSection modelSchema) "properties" in
  let required := orElse (optProp (inputSection modelSchema) "required") (JArr []) in
  if negb (truthy properties) then (simplified, Normal tt)
  else extractLoop required (objectEntries properties) simplified.

(** [extractSimplifiedSchema(modelSchema)]: [try { ... } catch (error)
    { console.warn(...) } return simplified]. *)
Definition extractSimplifiedSchema (modelSchema : JsValue) : Completion (gmap string ParamInfo) :=
  let '(simplified, outcome) := extractBody modelSchema ∅ in
  match outcome with
  | Normal _ => Normal simplified
  | Throw _ => Normal simplified
  end.

(** ** Capability classifiers *)

(** The classifier of the models service, [detectCapabilities(model,
    modelSchema)]: it reads the provider schema, not the simplified one. *)
Module Service.

Record Capabilities : Type := mkCapabilities {
  supportsSingleReference : bool;
  supportsMultipleReferences : bool;
  supportsImageToImage : bool
}.

Definition noCapabilities : Capabilities :=
  {| supportsSingleReference := false;
     supportsMultipleReferences := false;
     supportsImageToImage := false |}.

(** The [try] block: [capabilities] is the object being filled in. *)
Definition detectBody (modelSchema : JsValue) (capabilities : Capabilities)
  : Capabilities * Completion unit :=
  let schema := optProp (inputSection modelSchema) "properties" in
  if truthy schema then
    match getProp schema "image", getProp schema "images" with
    | Normal image, Normal images =>
        let hasImageParam := match image with JUndefined => false | _ => true end in
        let hasImagesParam := match images with JUndefined => false | _ => true end in
        let c1 :=
          if hasImageParam then
            {| supportsSingleReference := true;
               supportsMultipleReferences := supportsMultipleReferences capabilities;
               supportsImageToImage := true |}
          else capabilities in
        let c2 :=
          if hasImagesParam then
            {| supportsSingleReference := true;
               supportsMultipleReferences := true;
               supportsImageToImage := true |}
          else c1 in
        (c2, Normal tt)
    | Throw e, _ | _, Throw e => (capabilities, Throw e)
    end
  else (capabilities, Normal tt).

Definition detectCapabilities (modelSchema : JsValue) : Completion Capabilities :=
  let '(capabilities, outcome) := detectBody modelSchema noCapabilities in
  match outcome with
  | Normal _ => Normal capabilities
  | Throw _ => Normal capabilities
  end.

End Service.

(** The classifier of the models routes, [detectCapabilities(inputSchema)]:
    it reads a simplified schema; [None] is a missing ([null], [undefined])
    schema. *)
Module Routes.

Record Capabilities : Type := mkCapabilities {
  textToImage : bool;
  imageToImage : bool;
  supportsReferenceImages : bool;
  supportedAspectRatios : list JsValue
}.

(** [Object.entries(inputSchema).filter(([key, param]) =>
    param.isImageInput && !param.isMask)]. *)
Definition imageInputs (inputSchema : gmap string ParamInfo) : list (string * ParamInfo) :=
  filter (fun kp => isImageInput kp.2 && negb (isMask kp.2) = true) (map_to_list inputSchema).

Definition aspectRatiosOf (inputSchema : gmap string ParamInfo) : list JsValue :=
  match inputSchema !! "aspect_ratio" with
  | Some {| options := Some opts |} => opts
  | _ =>
      match inputSchema !! "width", inputSchema !! "height" with
      | Some _, Some _ => [JStr "custom"]
      | _, _ => [JStr "1:1"]
      end
  end.

Definition detectCapabilities (inputSchema : option (gmap string ParamInfo)) : Capabilities :=
  match inputSchema with
  | None =>
      {| textToImage := true; imageToImage := false;
         supportsReferenceImages := false; supportedAspectRatios := [] |}
  | Some schema =>
      if bool_decide (size schema = 0%nat) then
        {| textToImage := true; imageToImage := false;
           supportsReferenceImages := false; supportedAspectRatios := [] |}
      else
        let hasImageInputs := negb (bool_decide (length (imageInputs schema) = 0%nat)) in
        {| textToImage := bool_decide (is_Some (schema !! "prompt"));
           imageToImage := hasImageInputs;
           supportsReferenceImages := hasImageInputs;
           supportedAspectRatios := aspectRatiosOf schema |}
  end.

End Routes.

(** ** Model catalog of the models service *)

(** A model of the service, with the fields the modelled functions read. *)
Record Model : Type := mkModel {
  id : string;
  name : string;
  owner : string;
  fullName : string;
  modelDescription : string;
  aspectRatios : list (string * (Z * Z));
  capabilities : Service.Capabilities;
  strengths : list string;
  inputSchema : gmap string ParamInfo
}.

(** An entry of a hand-written schema: no derived flag is set on it. *)
Definition plainParam (ty desc : string) (req : bool)
    (opts : option (list JsValue)) (dflt : option JsValue) : ParamInfo :=
  {| type_ := JStr ty; description := JStr desc; required := req;
     options := opts; default_ := dflt; format := None;
     isImageInput := false; isMask := false; optionalForReferenceImages := false |}.

Definition fluxRatios : list (string * (Z * Z)) :=
  [("1:1", (1024, 1024)%Z); ("16:9", (1344, 768)%Z); ("21:9", (1536, 640)%Z);
   ("9:16", (768, 1344)%Z); ("4:3", (1152, 896)%Z)].

Definition fluxRatioOptions : list JsValue :=
  [JStr "1:1"; JStr "16:9"; JStr "21:9"; JStr "9:16"; JStr "4:3"].

Definition promptParam : ParamInfo :=
  plainParam "string" "Text prompt for image generation" true None None.

Definition aspectRatioParam : ParamInfo :=
  plainParam "string" "Aspect ratio for the image" false
    (Some fluxRatioOptions) (Some (JStr "1:1")).

Definition fluxSchnell : Model :=
  {| id := "flux-schnell"; name := "Flux Schnell"; owner := "black-forest-labs";
     fullName := "black-forest-labs/flux-schnell";
     modelDescription := "Fast image generation with Flux";
     aspectRatios := fluxRatios;
     capabilities := Service.noCapabilities;
     strengths := ["fast"; "general-purpose"; "text-to-image"];
     inputSchema :=
       list_to_map
         [("prompt", promptParam);
          ("aspect_ratio", aspectRatioParam);
          ("num_outputs", plainParam "integer" "Number of images to generate" false
                            None (Some (JNum 1)))] |}.

Definition fluxDev : Model :=
  {| id := "flux-dev"; name := "Flux Dev"; owner := "black-forest-labs";
     fullName := "black-forest-labs/flux-dev";
     modelDescription := "High quality image generation with Flux";
     aspectRatios := fluxRatios;
     capabilities := Service.noCapabilities;
     strengths := ["high-quality"; "detailed"; "photorealistic"; "text-to-image"];
     inputSchema :=
       list_to_map
         [("prompt", promptParam);
          ("aspect_ratio", aspectRatioParam);
          ("guidance_scale", plainParam "number" "Guidance scale for generation" false
                               None (Some (JNum (7 # 2))));
          ("num_inference_steps", plainParam "integer" "Number of denoising steps" false
                                    None (Some (JNum 28)))] |}.

Definition stableDiffusion : Model :=
  {| id := "stable-diffusion"; name := "Stable Diffusion"; owner := "stability-ai";
     fullName := "stability-ai/stable-diffusion";
     modelDescription := "Classic stable diffusion model";
     aspectRatios := [("1:1", (512, 512)%Z); ("16:9", (768, 432)%Z); ("9:16", (432, 768)%Z)];
     capabilities := Service.noCapabilities;
     strengths := ["versatile"; "general-purpose"; "text-to-image"];
     inputSchema :=
       list_to_map
         [("prompt", promptParam);
          ("width", plainParam "integer" "Width of the generated image" false
                      None (Some (JNum 512)));
          ("height", plainParam "integer" "Height of the generated image" false
                       None (Some (JNum 512)));
          ("negative_prompt", plainParam "string" "Negative prompt to avoid certain elements"
                                false None None)] |}.

(** [this.fallbackModels]. *)
Definition fallbackModels : list Model := [fluxSchnell; fluxDev; stableDiffusion].

(** [this.modelsCache]; [data] is [None] for [null]. *)
Record ModelsCache : Type := mkModelsCache {
  data : option (list Model);
  fetchedAt : Z;
  ttl : Z
}.

(** The cache the constructor installs. *)
Definition initialCache : ModelsCache :=
  {| data := None; fetchedAt := 0; ttl := 3600000 |}.

(** [isCacheValid()], at the instant [now] that [Date.now()] returns. *)
Definition isCacheValid (cache : ModelsCache) (now : Z) : bool :=
  match data cache with
  | None => false
  | Some _ => (now - fetchedAt cache <? ttl cache)%Z
  end.

(** [this.modelsCache.data] where the cache is valid. *)
Definition cachedModels (cache : ModelsCache) : list Model :=
  match data cache with
  | Some models => models
  | None => []
  end.

(** What one call of [getImageModels] observes of the outside: the clock
    when the cache is checked, the outcome of [fetchModelsFromAPI()] should
    it be awaited, and the clock when the cache is stored. *)
Record World : Type := mkWorld {
  clockAtCheck : Z;
  fetchModelsFromAPI : Completion (list Model);
  clockAtStore : Z
}.

(** [options.referenceImageCount]; [None] is [undefined]. *)
Record Options : Type := mkOptions {
  referenceImageCount : option Q
}.

(** The filter step of [getImageModels]. *)
Definition applyReferenceFilter (options : Options) (models : list Model) : list Model :=
  match referenceImageCount options with
  | None => models
  | Some count =>
      if Qeq_bool count 0 then models
      else if Qeq_bool count 1 then
        filter (fun m => Service.supportsSingleReference (capabilities m) = true) models
      else if negb (Qle_bool count 1) then
        filter (fun m => Service.supportsMultipleReferences (capabilities m) = true) models
      else models
  end.

(** [getImageModels(options)] as a step of the service: the completion of
    the call and the cache it leaves.  The [try]/[catch] around the fetch
    sends every exception to the fallback list. *)
Definition getImageModels (cache : ModelsCache) (world : World) (options : Options)
  : Completion (list Model) * ModelsCache :=
  if isCacheValid cache (clockAtCheck world) then
    (Normal (applyReferenceFilter options (cachedModels cache)), cache)
  else
    match fetchModelsFromAPI world with
    | Normal models =>
        (Normal (applyReferenceFilter options models),
         {| data := Some models; fetchedAt := clockAtStore world; ttl := ttl cache |})
    | Throw _ =>
        (Normal (applyReferenceFilter options fallbackModels), cache)
    end.

(** [getModelById(modelId)] on the list [getImageModels()] resolved to. *)
Definition findModel (models : list Model) (modelId : string) : option Model :=
  List.find (fun m => String.eqb (id m) modelId || String.eqb (fullName m) modelId) models.

(** ** Generation: validation of reference images *)

(** [Object.entries(model.inputSchema || {}).filter(([_, param]) =>
    param.isImageInput === true && !param.isMask)], with the parameter kept
    next to its name. *)
Definition imageInputParams (schema : gmap string ParamInfo) : list (string * ParamInfo) :=
  filter (fun kp => isImageInput kp.2 && negb (isMask kp.2) = true) (map_to_list schema).

(** [imageInputParams.filter(p => p.type === 'array')]. *)
Definition arrayImageParams (schema : gmap string ParamInfo) : list (string * ParamInfo) :=
  filter (fun kp => isStr (type_ kp.2) "array" = true) (imageInputParams schema).

Inductive ValidationError : Type :=
| ModelDoesNotAcceptReferences (modelName : string)
| TooManyReferenceImages (modelName : string) (provided : nat).

(** The schema-aware validation block of [executeGenerateImage], for the
    model found and the normalized reference list. *)
Definition validateReferences (model : Model) (normalizedReferences : list string)
  : option ValidationError :=
  if bool_decide (0 < length normalizedReferences)%nat then
    if bool_decide (length (imageInputParams (inputSchema model)) = 0%nat) then
      Some (ModelDoesNotAcceptReferences (name model))
    else if bool_decide (1 < length normalizedReferences)%nat then
      if bool_decide (length (arrayImageParams (inputSchema model)) = 0%nat) then
        Some (TooManyReferenceImages (name model) (length normalizedReferences))
      else None
    else None
  else None.

(** How [generateImage] passes the references on: by parameter name. *)
Inductive ReferenceBinding : Type :=
| NoReferences
| ViaImageInput (urls : list string)
| ViaImage (url : string)
| Unbound.

(** The reference-image step of [generateImage]: [image_input] takes the
    whole list, [image] exactly one, and a schema with neither only logs a
    warning. *)
Definition bindReferences (model : Model) (referenceImages : list string)
  : Completion ReferenceBinding :=
  match referenceImages with
  | [] => Normal NoReferences
  | first :: others =>
      match inputSchema model !! "image_input", inputSchema model !! "image" with
      | Some _, _ => Normal (ViaImageInput referenceImages)
      | None, Some _ =>
          match others with
          | [] => Normal (ViaImage first)
          | _ :: _ => Throw (Error "only accepts single reference image via image parameter")
          end
      | None, None => Normal Unbound
      end
  end.

(** ** Model filter service: scoring and ranking *)

Module Filter.

Record QualityProfile : Type := mkQualityProfile {
  speed : option string;
  detail : option string;
  coherence : option string;
  promptFollowing : option string
}.

(** [model.summary], with the fields [scoreModel] reads by name. *)
Record Summary : Type := mkSummary {
  bestFor : option (list string);
  notGoodFor : option (list string);
  styleStrengths : option (list string);
  qualityProfile : option QualityProfile
}.

(** [model.capabilities] of an entry of model-summaries.json;
    [supportedAspectRatios] is [None] when the field is missing. *)
Record Capabilities : Type := mkCapabilities {
  textToImage : bool;
  imageToImage : bool;
  supportsReferenceImages : bool;
  supportedAspectRatios : option (list JsValue)
}.

(** An entry of model-summaries.json, with the fields the filter service
    reads. *)
Record Model : Type := mkModel {
  id : string;
  name : string;
  owner : string;
  fullName : string;
  runCount : N;
  capabilities : Capabilities;
  summary : option Summary
}.

(** The requirements object; an absent array is the empty list, an absent
    string is [None]. *)
Record Requirements : Type := mkRequirements {
  needsReferenceImages : bool;
  minQuality : option string;
  styleFocus : list string;
  speedPreference : option string;
  preferredModel : option string;
  useCase : option string;
  specialNeeds : list string;
  aspectRatio : option string
}.

(** [requirements = {}]. *)
Definition noRequirements : Requirements :=
  {| needsReferenceImages := false; minQuality := None; styleFocus := [];
     speedPreference := None; preferredModel := None; useCase := None;
     specialNeeds := []; aspectRatio := None |}.

(** The accumulators [score] and [reasons] of [scoreModel]; the score is
    a double. *)
Record Scoring : Type := mkScoring {
  score : float;
  reasons : list string
}.

(** [score += delta]. *)
Definition add (delta : float) (st : Scoring) : Scoring :=
  {| score := PrimFloat.add (score st) delta; reasons := reasons st |}.

(** [score -= delta]. *)
Definition sub (delta : float) (st : Scoring) : Scoring :=
  {| score := PrimFloat.sub (score st) delta; reasons := reasons st |}.

Definition push (reason : string) (st : Scoring) : Scoring :=
  {| score := score st; reasons := reasons st ++ [reason] |}.

(** Truthiness of an optional string. *)
Definition given (o : option string) : bool :=
  match o with
  | Some s => negb (String.eqb s "")
  | None => false
  end.

(** What [qualityMap[word] || 3] is: a level, or, under a name that every
    object inherits from [Object.prototype], the inherited member, which
    is truthy. *)
Inductive QualityLevel : Type :=
| Level (n : Z)
| Inherited (key : string).

(** [qualityMap[level] || 3]. *)
Definition qualityLevel (level : option string) : QualityLevel :=
  match level with
  | Some s =>
      if String.eqb s "low" then Level 1
      else if String.eqb s "moderate" then Level 2
      else if String.eqb s "good" then Level 3
      else if String.eqb s "very-good" then Level 4
      else if String.eqb s "excellent" then Level 5
      else if inheritedMember s then Inherited s
      else Level 3
  | None => Level 3
  end.

(** The primitive value of an inherited member in a comparison: the
    source text of a built-in function, and "[object Object]" for the
    prototype object itself. *)
Definition memberText (key : string) : string :=
  if String.eqb key "__proto__" then "[object Object]"
  else if String.eqb key "constructor" then "function Object() { [native code] }"
  else "function " +:+ key +:+ "() { [native code] }".

(** [a >= b] on what [qualityLevel] returns: two levels compare as
    numbers; a member against a level is [NaN] against a number, which is
    false; two members compare as strings, by code units. *)
Definition atLeast (a b : QualityLevel) : bool :=
  match a, b with
  | Level x, Level y => (y <=? x)%Z
  | Inherited k1, Inherited k2 => negb (String.ltb (memberText k1) (memberText k2))
  | _, _ => false
  end.

Section Scoring.

(** [String.prototype.toLowerCase], a function of the runtime: it folds
    by the Unicode case mappings. *)
Variable toLowerCase : string -> string.
(** [Math.log10]. *)
Variable log10 : float -> float.
(** [JSON.stringify(model.summary || {})]. *)
Variable stringifySummary : Model -> string.

(** [a.toLowerCase().includes(b.toLowerCase()) ||
    b.toLowerCase().includes(a.toLowerCase())]. *)
Definition overlaps (a b : string) : bool :=
  includes (toLowerCase a) (toLowerCase b) || includes (toLowerCase b) (toLowerCase a).

Definition profileOf (m : Model) : option QualityProfile :=
  match summary m with
  | Some s => qualityProfile s
  | None => None
  end.

(** [model.summary?.qualityProfile?.speed || 'moderate']. *)
Definition speedOf (m : Model) : string :=
  match profileOf m with
  | Some {| speed := Some s |} => if String.eqb s "" then "moderate" else s
  | _ => "moderate"
  end.

Definition isFast (s : string) : bool := String.eqb s "very-fast" || String.eqb s "fast".
Definition isSlow (s : string) : bool := String.eqb s "very-slow" || String.eqb s "slow".

(** [model.summary?.styleStrengths || []]. *)
Definition modelStyles (m : Model) : list string :=
  match summary m with
  | Some {| styleStrengths := Some l |} => l
  | _ => []
  end.

(** [requirements.styleFocus.filter(reqStyle => modelStyles.some(...))]. *)
Definition matchedStyles (m : Model) (r : Requirements) : list string :=
  List.filter (fun reqStyle =>
                 existsb (fun modelStyle => overlaps modelStyle reqStyle) (modelStyles m))
              (styleFocus r).

(** The preferred-model test of [scoreModel]. *)
Definition matchesPreferred (m : Model) (preferred : string) : bool :=
  let preferredLower := toLowerCase preferred in
  includes (toLowerCase (name m)) preferredLower ||
  includes (toLowerCase (id m)) preferredLower ||
  includes (toLowerCase (owner m)) preferredLower ||
  includes (toLowerCase (fullName m)) preferredLower.

(** [model.runCount || 1], a run count being a natural number. *)
Definition runCountOrOne (m : Model) : float :=
  numberOfZ (Z.of_N (if (runCount m =? 0)%N then 1%N else runCount m)).

(** [Math.min(x, 1)]: [x] when it is [NaN] or at most 1. *)
Definition minWithOne (x : float) : float :=
  if PrimFloat.ltb 1 x then 1%float else x.

(** [Math.min(Math.log10(model.runCount || 1) / 10, 1) * 20]. *)
Definition popularityScore (m : Model) : float :=
  PrimFloat.mul (minWithOne (PrimFloat.div (log10 (runCountOrOne m)) 10)) 20.

Definition popularityStep (m : Model) (st : Scoring) : Scoring :=
  add (popularityScore m) st.

Definition preferredModelStep (m : Model) (r : Requirements) (st : Scoring) : Scoring :=
  match preferredModel r with
  | Some preferred =>
      if given (preferredModel r) && matchesPreferred m preferred
      then push "User explicitly requested this model" (add 100 st)
      else st
  | None => st
  end.

Definition referenceStep (m : Model) (r : Requirements) (st : Scoring) : Scoring :=
  if needsReferenceImages r then
    if supportsReferenceImages (capabilities m) || imageToImage (capabilities m)
    then push "Supports reference images" (add 30 st)
    else push "Does not support reference images (required)" (sub 50 st)
  else if textToImage (capabilities m) then add 10 st
  else st.

Definition styleStep (m : Model) (r : Requirements) (st : Scoring) : Scoring :=
  if bool_decide (0 < length (styleFocus r))%nat then
    if bool_decide (0 < length (modelStyles m))%nat then
      let matched := matchedStyles m r in
      if bool_decide (0 < length matched)%nat
      then push ("Matches style: " +:+ String.concat ", " matched)
                (add (PrimFloat.mul (numberOfZ (Z.of_nat (length matched))) 15) st)
      else push "Style mismatch" (sub 10 st)
    else st
  else st.

Definition qualityStep (m : Model) (r : Requirements) (st : Scoring) : Scoring :=
  if given (minQuality r) then
    let minQualityLevel := qualityLevel (minQuality r) in
    let modelDetail := qualityLevel (p ← profileOf m; detail p) in
    let modelPromptFollowing := qualityLevel (p ← profileOf m; promptFollowing p) in
    let st1 :=
      if atLeast modelDetail minQualityLevel
      then push "Meets quality requirements" (add 10 st)
      else push "Below quality requirements" (sub 20 st) in
    if atLeast modelPromptFollowing minQualityLevel then add 5 st1 else st1
  else st.

Definition speedStep (m : Model) (r : Requirements) (st : Scoring) : Scoring :=
  match speedPreference r with
  | Some pref =>
      if String.eqb pref "fast" then
        if isFast (speedOf m) then push "Fast generation" (add 15 st)
        else if isSlow (speedOf m) then push "Slow generation" (sub 10 st)
        else st
      else if String.eqb pref "no" then
        if isFast (speedOf m) then sub 5 st else st
      else st
  | None => st
  end.

Definition bestForStep (m : Model) (r : Requirements) (st : Scoring) : Scoring :=
  match useCase r, s ← summary m; bestFor s with
  | Some uc, Some entries =>
      if given (useCase r) && existsb (fun entry => overlaps entry uc) entries
      then push "Matches use case" (add 20 st)
      else st
  | _, _ => st
  end.

Definition aspectRatioStep (m : Model) (r : Requirements) (st : Scoring) : Scoring :=
  match aspectRatio r, supportedAspectRatios (capabilities m) with
  | Some ratio, Some supported =>
      if given (aspectRatio r) then
        if arrayIncludesStr supported ratio then add 5 st
        else if arrayIncludesStr supported "custom" then add 3 st
        else push "Aspect ratio not supported" (sub 5 st)
      else st
  | _, _ => st
  end.

(** [requirements.specialNeeds.filter(need =>
    summaryText.includes(need.toLowerCase()))]. *)
Definition matchedNeeds (m : Model) (r : Requirements) : list string :=
  List.filter (fun need => includes (toLowerCase (stringifySummary m)) (toLowerCase need))
              (specialNeeds r).

Definition specialNeedsStep (m : Model) (r : Requirements) (st : Scoring) : Scoring :=
  if bool_decide (0 < length (specialNeeds r))%nat then
    let matched := matchedNeeds m r in
    if bool_decide (0 < length matched)%nat
    then push ("Supports: " +:+ String.concat ", " matched)
              (add (PrimFloat.mul (numberOfZ (Z.of_nat (length matched))) 10) st)
    else st
  else st.

Definition notGoodForStep (m : Model) (r : Requirements) (st : Scoring) : Scoring :=
  match useCase r, s ← summary m; notGoodFor s with
  | Some uc, Some entries =>
      if given (useCase r) && existsb (fun entry => overlaps entry uc) entries
      then push "Model explicitly not recommended for this use case" (sub 30 st)
      else st
  | _, _ => st
  end.

(** [scoreModel(model, requirements)]: the blocks of the function in
    the order they run, from [score = 0] and [reasons = []]. *)
Definition scoreModel (m : Model) (r : Requirements) : Scoring :=
  notGoodForStep m r
    (specialNeedsStep m r
      (aspectRatioStep m r
        (bestForStep m r
          (speedStep m r
            (qualityStep m r
              (styleStep m r
                (referenceStep m r
                  (preferredModelStep m r
                    (popularityStep m {| score := 0; reasons := [] |}))))))))).

(** The three hard filters of [filterAndScoreModels], one by one:
    [true] when the filter lets the model through. *)
Definition passesReferenceFilter (r : Requirements) (m : Model) : bool :=
  if needsReferenceImages r
  then supportsReferenceImages (capabilities m) || imageToImage (capabilities m)
  else true.

Definition passesTextFilter (r : Requirements) (m : Model) : bool :=
  if negb (needsReferenceImages r) then textToImage (capabilities m) else true.

Definition passesAspectRatioFilter (r : Requirements) (m : Model) : bool :=
  match aspectRatio r, supportedAspectRatios (capabilities m) with
  | Some ratio, Some supported =>
      negb (given (aspectRatio r)
            && negb (arrayIncludesStr supported ratio)
            && negb (arrayIncludesStr supported "custom"))
  | _, _ => true
  end.

(** The callback of [allModels.filter]. *)
Definition passesHardFilters (r : Requirements) (m : Model) : bool :=
  passesReferenceFilter r m && passesTextFilter r m && passesAspectRatioFilter r m.

(** An element of [scored]: the model with [_score] and [_scoreReasons]. *)
Record Scored : Type := mkScored {
  model : Model;
  _score : float;
  _scoreReasons : list string
}.

Definition scoreOne (r : Requirements) (m : Model) : Scored :=
  let s := scoreModel m r in
  {| model := m; _score := score s; _scoreReasons := reasons s |}.

(** [scored.sort((a, b) => b._score - a._score)]: the stable sort of the
    language, as insertion from the right; [x] goes behind exactly the
    elements the comparator puts strictly before it.  The difference
    [y._score - x._score] of two doubles is positive exactly when
    [x._score < y._score]; it is [NaN], which the sort reads as 0, when a
    score is [NaN] or both are the same infinity. *)
Fixpoint insertByScore (x : Scored) (l : list Scored) : list Scored :=
  match l with
  | [] => [x]
  | y :: ys =>
      if PrimFloat.ltb (_score x) (_score y) then y :: insertByScore x ys else x :: l
  end.

Definition sortByScore (l : list Scored) : list Scored :=
  foldr insertByScore [] l.

(** [arr.slice(0, limit)] for an integer [limit]. *)
Definition sliceTo {A} (limit : Z) (l : list A) : list A :=
  if (limit <? 0)%Z then take (Z.to_nat (Z.of_nat (length l) + limit)) l
  else take (Z.to_nat limit) l.

(** [filterAndScoreModels(requirements, limit)] on the catalog that
    [loadModelSummaries()] returns. *)
Definition filterAndScoreModels (allModels : list Model) (r : Requirements) (limit : Z)
  : list Model :=
  if bool_decide (length allModels = 0%nat) then []
  else
    let filtered := List.filter (passesHardFilters r) allModels in
    let scored := List.map (scoreOne r) filtered in
    let topModels := sliceTo limit (sortByScore scored) in
    List.map model topModels.

End Scoring.

End Filter.

(** ** Notions used in the statements *)

(** The provider schema of scenario B: an array-typed [image_input] and a
    string-typed [mask]. *)
Definition scenarioB : JsValue :=
  JObj [("openapi_schema", JObj [("components", JObj [("schemas", JObj [("Input",
    JObj [("properties",
           JObj [("image_input", JObj [("type", JStr "array"); ("format", JStr "uri")]);
                 ("mask", JObj [("type", JStr "string")])])])])])])].

(** An image-accepting field: [isImageInput] set and [isMask] not. *)
Definition acceptsImage (p : ParamInfo) : Prop :=
  isImageInput p = true /\ isMask p = false.

(** A parameter to which the extractor gave [isImageInput]. *)
Definition imageParam (ty : string) : ParamInfo :=
  {| type_ := JStr ty; description := JStr ""; required := false;
     options := None; default_ := None; format := Some (JStr "uri");
     isImageInput := true; isMask := false; optionalForReferenceImages := false |}.

(** A parameter to which the extractor gave [isMask]. *)
Definition maskParam : ParamInfo :=
  {| type_ := JStr "string"; description := JStr ""; required := false;
     options := None; default_ := None; format := None;
     isImageInput := false; isMask := true; optionalForReferenceImages := true |}.

Definition withSchema (modelName : string) (schema : gmap string ParamInfo) : Model :=
  {| id := modelName; name := modelName; owner := "example";
     fullName := "example/" +:+ modelName; modelDescription := "";
     aspectRatios := []; capabilities := Service.noCapabilities; strengths := [];
     inputSchema := schema |}.

(** A model with the simplified schema of scenario A: a prompt and one
    string-typed image. *)
Definition scenarioAModel : Model :=
  withSchema "single" (list_to_map [("prompt", promptParam); ("image", imageParam "string")]).

(** A model with the simplified schema of scenario B. *)
Definition scenarioBModel : Model :=
  withSchema "multi" (list_to_map [("image_input", imageParam "array"); ("mask", maskParam)]).


(** A model with a string-typed [image] and an array-typed image field
    under another name. *)
Definition mixedModel : Model :=
  withSchema "mixed" (list_to_map [("image", imageParam "string");
                                   ("input_images", imageParam "array")]).

(** An unfiltered read: no [referenceImageCount], or a count of 0. *)
Definition unfiltered (options : Options) : Prop :=
  match referenceImageCount options with
  | None => True
  | Some count => (count == 0)%Q
  end.

Section Notions.

Import Filter.

(** The state [scoreModel] starts from. *)
Definition start : Scoring := {| score := 0; reasons := [] |}.

(** A double that is a number. *)
Definition numeric (x : float) : Prop := PrimFloat.is_nan x = false.

(** The requirements with another [styleFocus]. *)
Definition withStyleFocus (r : Requirements) (styles : list string) : Requirements :=
  {| needsReferenceImages := needsReferenceImages r;
     minQuality := minQuality r;
     styleFocus := styles;
     speedPreference := speedPreference r;
     preferredModel := preferredModel r;
     useCase := useCase r;
     specialNeeds := specialNeeds r;
     aspectRatio := aspectRatio r |}.

(** The requirements with another [preferredModel]. *)
Definition withPreferredModel (r : Requirements) (preferred : option string) : Requirements :=
  {| needsReferenceImages := needsReferenceImages r;
     minQuality := minQuality r;
     styleFocus := styleFocus r;
     speedPreference := speedPreference r;
     preferredModel := preferred;
     useCase := useCase r;
     specialNeeds := specialNeeds r;
     aspectRatio := aspectRatio r |}.

(** [a] may stand before [b] in the ranking: its score is not below
    that of [b]. *)
Definition descending (a b : Scored) : Prop :=
  PrimFloat.ltb (_score a) (_score b) = false.

(** The elements whose score equals [q], in the order they have in [l]. *)
Definition ties (q : float) (l : list Scored) : list Scored :=
  List.filter (fun s => PrimFloat.eqb (_score s) q) l.

Variable toLowerCase : string -> string.
Variable log10 : float -> float.
Variable stringifySummary : Model -> string.

(** [a] contains [b] as a substring, letter case aside. *)
Definition containsCI (a b : string) : Prop :=
  exists pre post, toLowerCase a = pre +:+ toLowerCase b +:+ post.

(** The blocks of [scoreModel] that run before the style block, from the
    start, and those that run after it. *)
Definition beforeStyle (m : Model) (r : Requirements) : Scoring :=
  referenceStep m r
    (preferredModelStep toLowerCase m r (popularityStep log10 m start)).

Definition afterStyle (m : Model) (r : Requirements) (st : Scoring) : Scoring :=
  notGoodForStep toLowerCase m r
    (specialNeedsStep toLowerCase stringifySummary m r
      (aspectRatioStep m r
        (bestForStep toLowerCase m r
          (speedStep m r
            (qualityStep m r st))))).

(** The models that pass the hard filters, scored, in catalog order. *)
Definition scoredSurvivors (allModels : list Model) (r : Requirements) : list Scored :=
  List.map (scoreOne toLowerCase log10 stringifySummary r)
           (List.filter (passesHardFilters r) allModels).

End Notions.

(** ** Catalogs and requests for evaluation *)

(** [Math.log10] on the powers of ten from 1 to 10^12, where its value is
    an integer; the catalogs evaluated below take their run counts there
    (an absent or zero run count is read as 1).  Between two powers the
    table gives the larger exponent, which is not the logarithm. *)
Definition log10AtPowersOfTen (x : float) : float :=
  (fix search (fuel : nat) (power exponent : float) : float :=
     match fuel with
     | O => exponent
     | S fuel' =>
         if PrimFloat.leb x power then exponent
         else search fuel' (PrimFloat.mul power 10) (PrimFloat.add exponent 1)
     end) 12%nat 1%float 0%float.

(** The text of a summary, for requirements without [specialNeeds], which
    never read it. *)
Definition summaryTextUnread (m : Filter.Model) : string := "{}".

Definition textOnly (ratios : option (list JsValue)) : Filter.Capabilities :=
  {| Filter.textToImage := true; Filter.imageToImage := false;
     Filter.supportsReferenceImages := false; Filter.supportedAspectRatios := ratios |}.

Definition profile (speed detail promptFollowing : string) : option Filter.QualityProfile :=
  Some {| Filter.speed := Some speed; Filter.detail := Some detail;
          Filter.coherence := Some "good"; Filter.promptFollowing := Some promptFollowing |}.

(** A text-to-image model whose list of aspect ratios is empty, as the
    routes classifier leaves it for an empty schema. *)
Definition bareModel : Filter.Model :=
  {| Filter.id := "bare"; Filter.name := "bare"; Filter.owner := "example";
     Filter.fullName := "example/bare"; Filter.runCount := 0;
     Filter.capabilities := textOnly (Some []); Filter.summary := None |}.

Definition wantsRatio (ratio : string) : Filter.Requirements :=
  {| Filter.needsReferenceImages := false; Filter.minQuality := None;
     Filter.styleFocus := []; Filter.speedPreference := None;
     Filter.preferredModel := None; Filter.useCase := None;
     Filter.specialNeeds := []; Filter.aspectRatio := Some ratio |}.

Definition sdModel : Filter.Model :=
  {| Filter.id := "stable-diffusion"; Filter.name := "stable-diffusion";
     Filter.owner := "stability-ai"; Filter.fullName := "stability-ai/stable-diffusion";
     Filter.runCount := 1000;
     Filter.capabilities := textOnly (Some [JStr "1:1"; JStr "16:9"]);
     Filter.summary := None |}.

Definition wantsStyles (styles : list string) : Filter.Requirements :=
  {| Filter.needsReferenceImages := false; Filter.minQuality := None;
     Filter.styleFocus := styles; Filter.speedPreference := None;
     Filter.preferredModel := None; Filter.useCase := None;
     Filter.specialNeeds := []; Filter.aspectRatio := None |}.

Definition animeModel : Filter.Model :=
  {| Filter.id := "anime-xl"; Filter.name := "anime-xl";
     Filter.owner := "example-labs"; Filter.fullName := "example-labs/anime-xl";
     Filter.runCount := 0;
     Filter.capabilities := textOnly None;
     Filter.summary :=
       Some {| Filter.bestFor := Some ["Portraits"];
               Filter.notGoodFor := Some [];
               Filter.styleStrengths := Some ["Anime"; "Digital art"];
               Filter.qualityProfile := profile "fast" "excellent" "excellent" |} |}.

Definition fluxDevModel : Filter.Model :=
  {| Filter.id := "flux-dev"; Filter.name := "flux-dev";
     Filter.owner := "black-forest-labs";
     Filter.fullName := "black-forest-labs/flux-dev";
     Filter.runCount := 0;
     Filter.capabilities := textOnly None;
     Filter.summary :=
       Some {| Filter.bestFor := Some ["Product shots"];
               Filter.notGoodFor := Some ["Portraits"];
               Filter.styleStrengths := Some ["Photorealistic"];
               Filter.qualityProfile := profile "slow" "good" "good" |} |}.

Definition prefers (preferred : string) (rest : Filter.Requirements) : Filter.Requirements :=
  withPreferredModel rest (Some preferred).

Definition portraitRequest : Filter.Requirements :=
  {| Filter.needsReferenceImages := false; Filter.minQuality := Some "excellent";
     Filter.styleFocus := ["anime"]; Filter.speedPreference := Some "fast";
     Filter.preferredModel := Some "flux-dev"; Filter.useCase := Some "portraits";
     Filter.specialNeeds := []; Filter.aspectRatio := None |}.

(** ** Further functions of the models service *)

(** [clearCache()]. *)
Definition clearCache (cache : ModelsCache) : ModelsCache :=
  {| data := None; fetchedAt := 0; ttl := ttl cache |}.

(** [models.find(m => m.id === modelId || m.fullName === modelId)] for an
    argument of any type: strict equality with a string field holds for
    strings only. *)
Definition lookupModel (models : list Model) (modelId : JsValue) : option Model :=
  match modelId with
  | JStr s => findModel models s
  | _ => None
  end.

(** [getModelById(modelId)] as a step of the service: it awaits
    [getImageModels()] without options and searches the list that call
    resolved to. *)
Definition getModelById (cache : ModelsCache) (world : World) (modelId : JsValue)
  : Completion (option Model) * ModelsCache :=
  let '(outcome, cache') := getImageModels cache world {| referenceImageCount := None |} in
  (models ← outcome; Normal (lookupModel models modelId), cache').

(** A model of the catalog together with its [tags] field, which
    [searchModels] reads; it is [None] on an entry that has no such field,
    as the entries of [fallbackModels] are written. *)
Record TaggedModel : Type := mkTaggedModel {
  entry : Model;
  tags : option (list string)
}.

(** [this.fallbackModels] again, with the absence of [tags] recorded. *)
Definition fallbackEntries : list TaggedModel :=
  List.map (fun m => {| entry := m; tags := None |}) fallbackModels.

Section Search.

(** [String.prototype.toLowerCase]. *)
Variable toLowerCase : string -> string.

(** The callback of [models.filter] in [searchModels]: the three
    disjuncts are tried from the left, and [model.tags.some] is a
    [TypeError] when the entry has no tags. *)
Definition matchesKeyword (lowerKeyword : string) (m : TaggedModel) : Completion bool :=
  if includes (toLowerCase (name (entry m))) lowerKeyword then Normal true
  else if includes (toLowerCase (modelDescription (entry m))) lowerKeyword then Normal true
  else match tags m with
       | Some ts => Normal (existsb (fun tag => includes (toLowerCase tag) lowerKeyword) ts)
       | None => Throw (TypeError "Cannot read properties of undefined (reading 'some')")
       end.

(** [arr.filter(callback)] for a callback that may throw. *)
Fixpoint filterC {A} (callback : A -> Completion bool) (l : list A) : Completion (list A) :=
  match l with
  | [] => Normal []
  | x :: rest =>
      keep ← callback x;
      kept ← filterC callback rest;
      Normal (if keep : bool then x :: kept else kept)
  end.

(** [searchModels(keyword)] on the list [getImageModels()] resolved to. *)
Definition searchModels (models : list TaggedModel) (keyword : string)
  : Completion (list TaggedModel) :=
  filterC (matchesKeyword (toLowerCase keyword)) models.

End Search.

(** What [model.aspectRatios[key]] is: an entry of the table, an inherited
    member (truthy, without [width] and [height]), or [undefined]. *)
Inductive TableSlot : Type :=
| OwnEntry (width height : Z)
| InheritedValue
| NoEntry.

Fixpoint ownEntry (key : string) (table : list (string * (Z * Z))) : option (Z * Z) :=
  match table with
  | [] => None
  | (k, dims) :: rest => if String.eqb key k then Some dims else ownEntry key rest
  end.

Definition tableSlot (table : list (string * (Z * Z))) (key : string) : TableSlot :=
  match ownEntry key table with
  | Some (w, h) => OwnEntry w h
  | None => if inheritedMember key then InheritedValue else NoEntry
  end.

(** Where [getDimensions] takes the size from: the model's table, or
    [calculateDimensionsFromAspectRatio(aspectRatio)]. *)
Inductive DimensionSource : Type :=
| FromTable (width height : Z)
| Calculated (aspectRatio : string).

(** [getDimensions], for the model [getModelConfig] returned:
    [model.aspectRatios[aspectRatio] || model.aspectRatios['1:1']], used
    when its width and height are both truthy. *)
Definition dimensionSource (model : Model) (aspectRatio : string) : DimensionSource :=
  let dimensions :=
    match tableSlot (aspectRatios model) aspectRatio with
    | NoEntry => tableSlot (aspectRatios model) "1:1"
    | slot => slot
    end in
  match dimensions with
  | OwnEntry w h =>
      if negb (w =? 0)%Z && negb (h =? 0)%Z then FromTable w h else Calculated aspectRatio
  | _ => Calculated aspectRatio
  end.

(** ** Further functions of the generation path *)

(** White space of one byte: tab to carriage return, and the space. *)
Definition isWhiteSpace (c : ascii) : bool :=
  let n := nat_of_ascii c in
  ((9 <=? n)%nat && (n <=? 13)%nat) || (n =? 32)%nat.

(** White space of two bytes: U+00A0. *)
Definition isWhiteSpace2 (c1 c2 : ascii) : bool :=
  (nat_of_ascii c1 =? 194)%nat && (nat_of_ascii c2 =? 160)%nat.

(** White space of three bytes: U+1680, U+2000 to U+200A, U+2028, U+2029,
    U+202F, U+205F, U+3000 and U+FEFF. *)
Definition isWhiteSpace3 (c1 c2 c3 : ascii) : bool :=
  let a := nat_of_ascii c1 in
  let b := nat_of_ascii c2 in
  let c := nat_of_ascii c3 in
  ((a =? 225) && (b =? 154) && (c =? 128)
   || (a =? 226) && (b =? 128)
      && ((128 <=? c) && (c <=? 138) || (c =? 168) || (c =? 169) || (c =? 175))
   || (a =? 226) && (b =? 129) && (c =? 159)
   || (a =? 227) && (b =? 128) && (c =? 128)
   || (a =? 239) && (b =? 187) && (c =? 191))%nat.

(** The string behind the white-space character that [s] begins with. *)
Definition afterWhiteSpace (s : string) : option string :=
  match s with
  | String c1 rest1 =>
      if isWhiteSpace c1 then Some rest1
      else match rest1 with
           | String c2 rest2 =>
               if isWhiteSpace2 c1 c2 then Some rest2
               else match rest2 with
                    | String c3 rest3 =>
                        if isWhiteSpace3 c1 c2 c3 then Some rest3 else None
                    | EmptyString => None
                    end
           | EmptyString => None
           end
  | EmptyString => None
  end.

(** [s.trimStart()]. *)
Fixpoint trimStart (s : string) : string :=
  match s with
  | String c1 rest1 =>
      if isWhiteSpace c1 then trimStart rest1
      else match rest1 with
           | String c2 rest2 =>
               if isWhiteSpace2 c1 c2 then trimStart rest2
               else match rest2 with
                    | String c3 rest3 =>
                        if isWhiteSpace3 c1 c2 c3 then trimStart rest3 else s
                    | EmptyString => s
                    end
           | EmptyString => s
           end
  | EmptyString => EmptyString
  end.

(** [s] is white space from end to end. *)
Fixpoint allWhiteSpace (s : string) : bool :=
  match s with
  | String c1 rest1 =>
      if isWhiteSpace c1 then allWhiteSpace rest1
      else match rest1 with
           | String c2 rest2 =>
               if isWhiteSpace2 c1 c2 then allWhiteSpace rest2
               else match rest2 with
                    | String c3 rest3 =>
                        isWhiteSpace3 c1 c2 c3 && allWhiteSpace rest3
                    | EmptyString => false
                    end
           | EmptyString => false
           end
  | EmptyString => true
  end.

(** [s.trimEnd()]: the string up to the place from which all is white
    space. *)
Fixpoint trimEnd (s : string) : string :=
  match s with
  | EmptyString => EmptyString
  | String c rest => if allWhiteSpace s then EmptyString else String c (trimEnd rest)
  end.

(** [s.trim()]. *)
Definition trim (s : string) : string := trimEnd (trimStart s).

(** [typeof ref === 'string' && ref.trim().length > 0]. *)
Definition isNonBlankString (v : JsValue) : bool :=
  match v with
  | JStr s => negb (String.eqb (trim s) "")
  | _ => false
  end.

Fixpoint stringsOf (items : list JsValue) : list string :=
  match items with
  | [] => []
  | JStr s :: rest => s :: stringsOf rest
  | _ :: rest => stringsOf rest
  end.

(** The normalization of [referenceImages] in [executeGenerateImage]: the
    non-blank strings of an array as they are, a non-blank string trimmed,
    and nothing for any other value. *)
Definition normalizeReferences (referenceImages : JsValue) : list string :=
  if truthy referenceImages then
    match referenceImages with
    | JArr items => stringsOf (List.filter isNonBlankString items)
    | JStr s => if isNonBlankString referenceImages then [trim s] else []
    | _ => []
    end
  else [].

Inductive PromptError : Type :=
| PromptIsRequired
| PromptTooShort
| PromptTooLong.

(** [s.length]: the number of UTF-16 code units of the string, one for a
    character of up to three bytes and two for a character of four. *)
Fixpoint codeUnits (s : string) : nat :=
  match s with
  | EmptyString => 0
  | String c rest =>
      let n := nat_of_ascii c in
      (if (128 <=? n) && (n <? 192) then 0 else if 240 <=? n then 2 else 1)%nat
      + codeUnits rest
  end.

(** [validatePrompt(prompt)]: [None] when it returns. *)
Definition validatePrompt (prompt : JsValue) : option PromptError :=
  match prompt with
  | JStr s =>
      if negb (truthy prompt) then Some PromptIsRequired
      else if (codeUnits s <? 3)%nat then Some PromptTooShort
      else if (2000 <? codeUnits s)%nat then Some PromptTooLong
      else None
  | _ => Some PromptIsRequired
  end.

(** The places where [executeGenerateImage] and [generateImage] throw,
    before the call of the provider.  [generateImage] rethrows what its
    [try] block raised as "Image generation failed: ...", and
    [executeGenerateImage] rethrows every error under its own message, so
    the places stay apart. *)
Inductive GenerationCause : Type :=
| InvalidPrompt (e : PromptError)
| ModelNotSupported
| SingleImageOnly
| CatalogFailure (e : JsError).

Inductive ExecuteError : Type :=
| ModelIdRequired
| PromptRequired
| ModelNotFound
| ReferencesRejected (e : ValidationError)
| ListingFailed (e : JsError)
| GenerationFailed (cause : GenerationCause).

Inductive Outcome (A : Type) : Type :=
| Done (a : A)
| Failed (e : ExecuteError).
Arguments Done {A} a.
Arguments Failed {A} e.

(** The arguments of the generate-image tool that decide the request. *)
Record GenerateArgs : Type := mkGenerateArgs {
  argModelId : JsValue;
  argPrompt : JsValue;
  argReferenceImages : JsValue;
  argAspectRatio : option string;
  argNegativePrompt : JsValue;
  argExtraParams : JsValue
}.

(** What [replicate.run] is called with. *)
Record Request : Type := mkRequest {
  runModel : string;
  input : gmap string JsValue
}.

(** [{ ...extraParams }] onto an object: the own properties of the value,
    one after the other. *)
Definition spread (v : JsValue) (target : gmap string JsValue) : gmap string JsValue :=
  foldr (fun kv acc => <[kv.1 := kv.2]> acc) target (objectEntries v).

(** The input parameters of [generateImage]: the object literal with
    [extraParams] spread last, then the assignments of the negative prompt
    and of the reference images. *)
Definition buildInputParams (prompt : JsValue) (width height : JsValue)
    (extraParams negativePrompt : JsValue) (binding : ReferenceBinding)
  : gmap string JsValue :=
  let literal :=
    spread extraParams
      (<["num_outputs" := JNum 1]>
         (<["height" := height]> (<["width" := width]> {[ "prompt" := prompt ]}))) in
  let withNegative :=
    if truthy negativePrompt then <["negative_prompt" := negativePrompt]> literal
    else literal in
  match binding with
  | ViaImageInput urls => <["image_input" := JArr (JStr <$> urls)]> withNegative
  | ViaImage url => <["image" := JStr url]> withNegative
  | NoReferences | Unbound => withNegative
  end.

Section Generation.

(** [calculateDimensionsFromAspectRatio]: its width and height, computed
    on doubles from the two numbers the ratio parses to. *)
Variable calculateDimensionsFromAspectRatio : string -> JsValue * JsValue.

Definition dimensionsOf (source : DimensionSource) : JsValue * JsValue :=
  match source with
  | FromTable w h => (JNum (inject_Z w), JNum (inject_Z h))
  | Calculated aspectRatio => calculateDimensionsFromAspectRatio aspectRatio
  end.

(** [metadata.aspectRatio || '1:1']. *)
Definition ratioOrSquare (aspectRatio : option string) : string :=
  match aspectRatio with
  | Some r => if String.eqb r "" then "1:1" else r
  | None => "1:1"
  end.

(** [getModelConfig(modelId)] as a step. *)
Definition getModelConfig (cache : ModelsCache) (world : World) (modelId : JsValue)
  : Outcome Model * ModelsCache :=
  match getModelById cache world modelId with
  | (Normal (Some model), cache') => (Done model, cache')
  | (Normal None, cache') => (Failed (GenerationFailed ModelNotSupported), cache')
  | (Throw e, cache') => (Failed (GenerationFailed (CatalogFailure e)), cache')
  end.

(** [generateImage(modelId, prompt, metadata)] up to the call of the
    provider.  The catalog is read twice, by [getModelConfig] and again
    inside [getDimensions]. *)
Definition generateImage (cache : ModelsCache) (world2 world3 : World)
    (modelId : JsValue) (prompt : JsValue) (aspectRatio : option string)
    (referenceImages : list string) (negativePrompt extraParams : JsValue)
  : Outcome Request * ModelsCache :=
  match validatePrompt prompt with
  | Some e => (Failed (GenerationFailed (InvalidPrompt e)), cache)
  | None =>
      match getModelConfig cache world2 modelId with
      | (Failed e, cache2) => (Failed e, cache2)
      | (Done model, cache2) =>
          let ratio := ratioOrSquare aspectRatio in
          match getModelConfig cache2 world3 modelId with
          | (Failed e, cache3) => (Failed e, cache3)
          | (Done sized, cache3) =>
              let '(width, height) := dimensionsOf (dimensionSource sized ratio) in
              match bindReferences model referenceImages with
              | Throw _ => (Failed (GenerationFailed SingleImageOnly), cache3)
              | Normal binding =>
                  (Done {| runModel := fullName model;
                           input := buildInputParams prompt width height
                                      extraParams negativePrompt binding |},
                   cache3)
              end
          end
      end
  end.

(** [executeGenerateImage(args)] up to the call of the provider: the
    guards, the lookup of the model, the validation of the references,
    and [generateImage] on [model.id]. *)
Definition executeGenerateImage (cache : ModelsCache) (world1 world2 world3 : World)
    (args : GenerateArgs) : Outcome Request * ModelsCache :=
  if negb (truthy (argModelId args)) then (Failed ModelIdRequired, cache)
  else if negb (isNonBlankString (argPrompt args)) then (Failed PromptRequired, cache)
  else
    let normalizedReferences := normalizeReferences (argReferenceImages args) in
    match getModelById cache world1 (argModelId args) with
    | (Throw e, cache1) => (Failed (ListingFailed e), cache1)
    | (Normal None, cache1) => (Failed ModelNotFound, cache1)
    | (Normal (Some model), cache1) =>
        match validateReferences model normalizedReferences with
        | Some e => (Failed (ReferencesRejected e), cache1)
        | None =>
            generateImage cache1 world2 world3 (JStr (id model)) (argPrompt args)
              (Some (ratioOrSquare (argAspectRatio args)))
              normalizedReferences (argNegativePrompt args)
              (orElse (argExtraParams args) (JObj []))
        end
    end.

End Generation.

(** ** Metadata classifiers *)

(** The fields of a provider record that the keyword classifiers read;
    [None] is a missing field. *)
Record ModelMeta : Type := mkModelMeta {
  metaName : option string;
  metaDescription : option string;
  metaTags : option (list string)
}.

(** [(field || '').toLowerCase()]. *)
Definition lowerOrEmpty (field : option string) : string :=
  match field with
  | Some s => toLowerCase s
  | None => ""
  end.

(** [(model.tags || []).map(t => t.toLowerCase())]. *)
Definition lowerTags (meta : ModelMeta) : list string :=
  match metaTags meta with
  | Some ts => List.map toLowerCase ts
  | None => []
  end.

Definition imageKeywords : list string :=
  ["image"; "text-to-image"; "generation"; "diffusion"; "flux"; "stable-diffusion";
   "sdxl"; "dalle"; "midjourney"; "art"; "picture"; "photo"].

Definition excludeKeywords : list string :=
  ["upscale"; "super-resolution"; "video"; "audio"; "music"; "speech"; "text-only";
   "captioning"; "detection"; "segmentation"; "classification"; "face-swap"].

(** [name.includes(keyword) || description.includes(keyword) ||
    tags.includes(keyword)]: a substring of the name or the description,
    or a tag as a whole. *)
Definition mentions (meta : ModelMeta) (keyword : string) : bool :=
  includes (lowerOrEmpty (metaName meta)) keyword
  || includes (lowerOrEmpty (metaDescription meta)) keyword
  || existsb (String.eqb keyword) (lowerTags meta).

(** [isImageGenerationModel(model)], the same in the service and in the
    routes. *)
Definition isImageGenerationModel (meta : ModelMeta) : bool :=
  if existsb (mentions meta) excludeKeywords then false
  else existsb (mentions meta) imageKeywords.

(** [strengthMap], in the order of its keys. *)
Definition strengthMap : list (string * list string) :=
  [("fast", ["fast"; "quick"; "speed"; "schnell"; "turbo"]);
   ("high-quality", ["quality"; "detailed"; "professional"; "pro"; "hd"; "ultra"]);
   ("photorealistic", ["photo"; "realistic"; "photorealistic"; "real"]);
   ("anime", ["anime"; "manga"; "japanese"]);
   ("artistic", ["art"; "artistic"; "creative"; "painting"]);
   ("3d", ["3d"; "render"; "cgi"]);
   ("versatile", ["versatile"; "general"; "multipurpose"]);
   ("text-to-image", ["text-to-image"; "txt2img"]);
   ("image-to-image", ["image-to-image"; "img2img"; "transformation"])].

(** [`${name} ${description} ${tags.join(' ')}`]. *)
Definition allText (meta : ModelMeta) : string :=
  lowerOrEmpty (metaName meta) +:+ " " +:+ lowerOrEmpty (metaDescription meta)
  +:+ " " +:+ String.concat " " (lowerTags meta).

(** The strengths the loop of [extractStrengths] pushes. *)
Definition detectedStrengths (meta : ModelMeta) : list string :=
  List.map fst
    (List.filter (fun entry => existsb (fun keyword => includes (allText meta) keyword) entry.2)
                 strengthMap).

(** [extractStrengths(model)]. *)
Definition extractStrengths (meta : ModelMeta) : list string :=
  match detectedStrengths meta with
  | [] => ["general-purpose"]
  | found => found
  end.

(** ** Summary helpers of the routes *)

Module Summaries.

(** What a lookup in an object literal of strings returns: one of its
    labels, or a member inherited from [Object.prototype]. *)
Inductive Estimate : Type :=
| Label (text : string)
| PrototypeMember (key : string).

(** [summary.qualityProfile?.speed || 'moderate']. *)
Definition speedOfSummary (summary : Filter.Summary) : string :=
  match Filter.qualityProfile summary with
  | Some {| Filter.speed := Some s |} => if String.eqb s "" then "moderate" else s
  | _ => "moderate"
  end.

(** [estimateInferenceTime(summary)]: [speedMap[speed] || 'unknown']. *)
Definition estimateInferenceTime (summary : Filter.Summary) : Estimate :=
  let speed := speedOfSummary summary in
  if String.eqb speed "very-fast" then Label "1-3s"
  else if String.eqb speed "fast" then Label "3-8s"
  else if String.eqb speed "moderate" then Label "8-15s"
  else if String.eqb speed "slow" then Label "15-30s"
  else if String.eqb speed "very-slow" then Label "30s+"
  else if inheritedMember speed then PrototypeMember speed
  else Label "unknown".

(** [estimateCostTier(model, summary)]. *)
Definition estimateCostTier (summary : Filter.Summary) : string :=
  let speed := speedOfSummary summary in
  if String.eqb speed "very-fast" || String.eqb speed "fast" then "low"
  else if String.eqb speed "moderate" then "medium"
  else "high".

(** The five ratings [buildSummaryPrompt] asks the summarizer to choose
    from, for each aspect of [qualityProfile], speed included. *)
Definition promptRatings : list string :=
  ["low"; "moderate"; "good"; "very-good"; "excellent"].



(** [tags.add(tag)] on a [Set], kept in insertion order. *)
Definition addTag (tag : string) (tags : list string) : list string :=
  if bool_decide (tag ∈ tags) then tags else tags ++ [tag].


End Summaries.

(** ** Notions used in the further statements *)

(** The models a query names: by [id] or by [fullName]. *)
Definition namedBy (modelId : string) (m : Model) : Prop :=
  id m = modelId \/ fullName m = modelId.


(** ** Catalogs and requests for the further evaluation *)

(** [calculateDimensionsFromAspectRatio] at "1:1", where both numbers are
    equal and the size is the base size; the requests evaluated below reach
    it with that ratio only. *)
Definition squareAtOneToOne (aspectRatio : string) : JsValue * JsValue :=
  (JNum 1024, JNum 1024).

(** The fallback list, in a cache that is still valid at [quietWorld]. *)
Definition fallbackCache : ModelsCache :=
  {| data := Some fallbackModels; fetchedAt := 1700000000000; ttl := 3600000 |}.

Definition quietWorld : World :=
  {| clockAtCheck := 1700000060000;
     fetchModelsFromAPI := Throw (Error "not called");
     clockAtStore := 1700000060000 |}.

Definition fluxDevArgs : GenerateArgs :=
  {| argModelId := JStr "flux-dev"; argPrompt := JStr "a red fox in the snow";
     argReferenceImages := JUndefined; argAspectRatio := Some "16:9";
     argNegativePrompt := JStr "blurry"; argExtraParams := JUndefined |}.

Definition fluxDevRequest : Request :=
  {| runModel := "black-forest-labs/flux-dev";
     input := list_to_map [("prompt", JStr "a red fox in the snow");
                           ("width", JNum 1344); ("height", JNum 768);
                           ("num_outputs", JNum 1);
                           ("negative_prompt", JStr "blurry")] |}.

Definition sdxlAlpha : Model :=
  {| id := "sdxl"; name := "sdxl"; owner := "alpha"; fullName := "alpha/sdxl";
     modelDescription := ""; aspectRatios := [];
     capabilities := Service.noCapabilities; strengths := [];
     inputSchema := {[ "prompt" := promptParam ]} |}.

Definition sdxlBeta : Model :=
  {| id := "sdxl"; name := "sdxl"; owner := "beta"; fullName := "beta/sdxl";
     modelDescription := ""; aspectRatios := [];
     capabilities := Service.noCapabilities; strengths := [];
     inputSchema := list_to_map [("prompt", promptParam);
                                 ("image_input", imageParam "array")] |}.

Definition namesakes : list Model := [sdxlAlpha; sdxlBeta].

Definition namesakeCache : ModelsCache :=
  {| data := Some namesakes; fetchedAt := 1700000000000; ttl := 3600000 |}.

(** A summary that rates the speed with a word of the summarizer prompt,
    and a model that carries it. *)
Definition ratedExcellent : Filter.Summary :=
  {| Filter.bestFor := None; Filter.notGoodFor := None; Filter.styleStrengths := None;
     Filter.qualityProfile := profile "excellent" "good" "good" |}.

Definition ratedModel : Filter.Model :=
  {| Filter.id := "rated"; Filter.name := "rated"; Filter.owner := "example";
     Filter.fullName := "example/rated"; Filter.runCount := 0;
     Filter.capabilities := textOnly None; Filter.summary := Some ratedExcellent |}.

(** A provider schema with an image property for a mask, and the entry
    the extractor makes of it. *)
Definition inpaintingSchema : JsValue :=
  JObj [("openapi_schema", JObj [("components", JObj [("schemas", JObj [("Input",
    JObj [("properties",
           JObj [("mask_image", JObj [("type", JStr "string"); ("format", JStr "uri")])])])])])])].

Definition maskImageParam : ParamInfo :=
  {| type_ := JStr "string"; description := JStr ""; required := false;
     options := None; default_ := None; format := Some (JStr "uri");
     isImageInput := true; isMask := true; optionalForReferenceImages := true |}.

(** * Properties *)

(** ** Strings *)

Lemma prefix_app (p s : string) :
  String.prefix p s = true <-> exists post, s = p +:+ post.
Proof.
  revert s. induction p as [|c p IH]; intros s.
  - split; [intros _; by exists s | by destruct s].
  - destruct s as [|d s]; cbn.
    + split; [done | intros [post H]; discriminate].
    + destruct (Ascii.ascii_dec c d) as [->|Hne].
      * rewrite IH. split; intros [post H]; exists post; [by rewrite H | by injection H].
      * split; [done | intros [post H]; injection H; congruence].
Qed.

(** [includes] decides the substring relation. *)
Lemma includes_substring (s sub : string) :
  includes s sub = true <-> exists pre post, s = pre +:+ sub +:+ post.
Proof.
  induction s as [|c s IH].
  - change (includes "" sub) with (String.prefix sub "" || false).
    rewrite orb_false_r, prefix_app. split.
    + intros [post H]. by exists "", post.
    + intros [pre [post H]]. destruct pre; [by exists post | discriminate].
  - change (includes (String c s) sub)
      with (String.prefix sub (String c s) || includes s sub).
    rewrite orb_true_iff, prefix_app, IH. split.
    + intros [[post H] | [pre [post H]]].
      * by exists "", post.
      * exists (String c pre), post. simpl. by rewrite H.
    + intros [pre [post H]]. destruct pre as [|d pre]; simpl in H.
      * left. by exists post.
      * right. injection H as -> H. by exists pre, post.
Qed.

Lemma isStr_eq (v : JsValue) (s : string) : isStr v s = true <-> v = JStr s.
Proof.
  destruct v; simpl; try (split; [done | discriminate]).
  rewrite String.eqb_eq. split; [by intros -> | by intros [= ->]].
Qed.

Lemma arrayIncludesStr_In (items : list JsValue) (s : string) :
  arrayIncludesStr items s = true <-> In (JStr s) items.
Proof.
  unfold arrayIncludesStr. rewrite existsb_exists. split.
  - intros [v [Hin Hv]]. apply isStr_eq in Hv. by subst.
  - intros Hin. exists (JStr s). split; [done | by apply isStr_eq].
Qed.

(** ** Schema extractor *)

Lemma extractSimplifiedSchema_returns (modelSchema : JsValue) :
  extractSimplifiedSchema modelSchema = Normal (extractBody modelSchema ∅).1.
Proof.
  unfold extractSimplifiedSchema.
  destruct (extractBody modelSchema ∅) as [simplified [[]|e]]; reflexivity.
Qed.

(** The body of the extractor does throw: a [null] property value makes
    [value.type] a [TypeError], which the [catch] of the function absorbs. *)
Example extractBody_throws_on_null_property :
  let modelSchema :=
    JObj [("openapi_schema", JObj [("components", JObj [("schemas", JObj [("Input",
      JObj [("properties", JObj [("seed", JNull)])])])])])] in
  (exists e, (extractBody modelSchema ∅).2 = Throw e)
  /\ extractSimplifiedSchema modelSchema = Normal ∅.
Proof. split; [eexists|]; reflexivity. Qed.

(** C8.  The schema extractor never throws: on every input, [null] and
    [undefined] among them, it completes normally with a mapping, and the
    mapping is empty when the [properties] section is absent (or falsy). *)
Theorem extractSimplifiedSchema_never_throws :
  (forall modelSchema : JsValue,
      exists simplified : gmap string ParamInfo,
        extractSimplifiedSchema modelSchema = Normal simplified)
  /\ extractSimplifiedSchema JNull = Normal ∅
  /\ extractSimplifiedSchema JUndefined = Normal ∅
  /\ (forall modelSchema : JsValue,
         truthy (optProp (inputSection modelSchema) "properties") = false ->
         extractSimplifiedSchema modelSchema = Normal ∅).
Proof.
  repeat split; try reflexivity.
  - intros modelSchema. eexists. apply extractSimplifiedSchema_returns.
  - intros modelSchema Hfalsy. rewrite extractSimplifiedSchema_returns.
    unfold extractBody. by rewrite Hfalsy.
Qed.

(** A schema object without a [properties] section. *)
Lemma extractSimplifiedSchema_never_throws_witness :
  extractSimplifiedSchema
    (JObj [("openapi_schema", JObj [("components", JObj [("schemas",
       JObj [("Input", JObj [("required", JArr [JStr "prompt"])])])])])]) = Normal ∅.
Proof.
  apply (proj2 (proj2 (proj2 extractSimplifiedSchema_never_throws))). reflexivity.
Defined.

(** ** Capability classifiers *)

(** What the service classifier looks at: a property named [images]. *)
Lemma Service_supportsMultipleReferences_iff (modelSchema : JsValue) :
  forall capabilities,
    Service.detectCapabilities modelSchema = Normal capabilities ->
    (Service.supportsMultipleReferences capabilities = true <->
     let schema := optProp (inputSection modelSchema) "properties" in
     exists fields, schema = JObj fields /\ assoc "images" fields <> JUndefined).
Proof.
  intros capabilities. unfold Service.detectCapabilities, Service.detectBody.
  destruct (optProp (inputSection modelSchema) "properties") as [| |b|q|s|items|fields] eqn:Hs;
    simpl.
  1-6: try destruct b; try destruct (negb _); intros [= <-]; simpl;
       (split; [discriminate | intros [fields [? _]]; discriminate]).
  destruct (assoc "image" fields), (assoc "images" fields) eqn:Himages;
    intros [= <-]; simpl;
    (split; [intros H; try discriminate H; exists fields; by rewrite Himages
            | intros [fields' [[= <-] Hne]]; rewrite ?Himages in Hne; congruence]).
Qed.

(** C1.  On scenario B the extracted schema has a non-mask image parameter
    of type "array" ([image_input]) next to the mask, yet the service
    classifier leaves [supportsMultipleReferences] false: it looks for a
    property named [images] only. *)
Theorem scenarioB_multiple_references_not_detected :
  exists schema capabilities,
    extractSimplifiedSchema scenarioB = Normal schema
    /\ (exists p, schema !! "image_input" = Some p
                  /\ isImageInput p = true /\ isMask p = false /\ type_ p = JStr "array")
    /\ (exists p, schema !! "mask" = Some p /\ isMask p = true)
    /\ Service.detectCapabilities scenarioB = Normal capabilities
    /\ Service.supportsMultipleReferences capabilities = false
    /\ Service.supportsSingleReference capabilities = false.
Proof.
  do 2 eexists. split; [reflexivity|].
  split; [eexists; split; [by vm_compute|]; by vm_compute|].
  split; [eexists; split; [by vm_compute|]; by vm_compute|].
  split; [reflexivity|]. split; reflexivity.
Qed.

(** On a missing or empty schema the routes classifier returns early, with
    no aspect ratio at all; and an [aspect_ratio] parameter with an empty
    option list hands that empty list on. *)
Lemma Routes_detectCapabilities_empty_schema_no_ratios :
  Routes.supportedAspectRatios (Routes.detectCapabilities (Some ∅)) = []
  /\ Routes.supportedAspectRatios (Routes.detectCapabilities None) = []
  /\ Routes.supportedAspectRatios
       (Routes.detectCapabilities
          (Some {[ "aspect_ratio" := plainParam "string" "" false (Some []) None ]})) = [].
Proof. repeat split; by vm_compute. Qed.

Lemma aspectRatiosOf_nonempty (schema : gmap string ParamInfo) :
  (forall p, schema !! "aspect_ratio" = Some p -> options p <> Some []) ->
  Routes.aspectRatiosOf schema <> [].
Proof.
  intros Hopts. unfold Routes.aspectRatiosOf.
  destruct (schema !! "aspect_ratio") as [p|] eqn:Hp.
  - specialize (Hopts p eq_refl). destruct p as [? ? ? [opts|] ? ? ? ? ?]; simpl in *.
    + destruct opts; [congruence | discriminate].
    + destruct (schema !! "width"), (schema !! "height"); discriminate.
  - destruct (schema !! "width"), (schema !! "height"); discriminate.
Qed.

(** C5 (as the code has it).  The routes classifier is total and fills its
    four fields on every input; a missing or empty schema is taken as
    text-to-image; the two reference flags agree; and the aspect-ratio list
    is non-empty for every non-empty schema whose [aspect_ratio] parameter
    does not carry an empty option list. *)
Theorem Routes_detectCapabilities_total (inputSchema : option (gmap string ParamInfo)) :
  (exists t i r a, Routes.detectCapabilities inputSchema = Routes.mkCapabilities t i r a)
  /\ Routes.supportsReferenceImages (Routes.detectCapabilities inputSchema)
     = Routes.imageToImage (Routes.detectCapabilities inputSchema)
  /\ ((inputSchema = None \/ inputSchema = Some ∅) ->
      Routes.textToImage (Routes.detectCapabilities inputSchema) = true
      /\ Routes.imageToImage (Routes.detectCapabilities inputSchema) = false)
  /\ (forall schema,
         inputSchema = Some schema -> schema <> ∅ ->
         (forall p, schema !! "aspect_ratio" = Some p -> options p <> Some []) ->
         Routes.supportedAspectRatios (Routes.detectCapabilities inputSchema) <> []).
Proof.
  split; [|split; [|split]].
  - destruct (Routes.detectCapabilities inputSchema) as [t i r a]. by exists t, i, r, a.
  - destruct inputSchema as [schema|]; simpl; [|done]. by case_bool_decide.
  - intros [-> | ->]; split; reflexivity.
  - intros schema -> Hne Hopts. simpl. case_bool_decide as Hsize.
    + by apply map_size_empty_iff in Hsize.
    + simpl. by apply aspectRatiosOf_nonempty.
Qed.

(** The schema of scenario A: a prompt and a single image. *)
Lemma Routes_detectCapabilities_total_witness :
  let schema : gmap string ParamInfo :=
    {[ "prompt" := promptParam ]} in
  Routes.supportedAspectRatios (Routes.detectCapabilities (Some schema)) <> [].
Proof.
  intros schema.
  apply (proj2 (proj2 (proj2 (Routes_detectCapabilities_total (Some schema)))) schema eq_refl).
  - by vm_compute.
  - intros p Hp. by vm_compute in Hp.
Defined.

(** ** Validation of reference images *)

Lemma imageInputParams_elem (schema : gmap string ParamInfo) k p :
  (k, p) ∈ imageInputParams schema <-> schema !! k = Some p /\ acceptsImage p.
Proof.
  unfold imageInputParams, acceptsImage. rewrite list_elem_of_filter, elem_of_map_to_list.
  simpl. rewrite andb_true_iff, negb_true_iff. tauto.
Qed.






(** Two images for a model whose only image field is a string. *)
Example validateReferences_too_many :
  validateReferences scenarioAModel ["https://a/1.png"; "https://a/2.png"]
  = Some (TooManyReferenceImages "single" 2).
Proof. by vm_compute. Qed.





(** Scenario B with two URLs: the validation lets them through and the
    adapter binds them to [image_input]; the mask is not considered. *)
Example scenarioB_two_references :
  validateReferences scenarioBModel ["https://a/1.png"; "https://a/2.png"] = None
  /\ bindReferences scenarioBModel ["https://a/1.png"; "https://a/2.png"]
     = Normal (ViaImageInput ["https://a/1.png"; "https://a/2.png"])
  /\ validateReferences (withSchema "inpaint" {[ "mask" := maskParam ]}) ["https://a/1.png"]
     = Some (ModelDoesNotAcceptReferences "inpaint").
Proof. repeat split; by vm_compute. Qed.

(** What [generateImage] does with the references afterwards is decided by
    parameter names, not by the flags: with an [image] entry and no
    [image_input] entry it refuses a second image of its own accord, also
    when the validation found an array-typed field under another name. *)
Example generateImage_binds_by_name :
  validateReferences mixedModel ["https://a/1.png"; "https://a/2.png"] = None
  /\ (exists e, bindReferences mixedModel ["https://a/1.png"; "https://a/2.png"] = Throw e)
  /\ bindReferences mixedModel ["https://a/1.png"] = Normal (ViaImage "https://a/1.png").
Proof. split; [|split; [eexists|]]; by vm_compute. Qed.

(** ** Catalog: cache and fallback *)

Lemma fallbackModels_capabilities (m : Model) :
  m ∈ fallbackModels ->
  Service.supportsSingleReference (capabilities m) = false
  /\ Service.supportsMultipleReferences (capabilities m) = false.
Proof.
  unfold fallbackModels. rewrite !elem_of_cons, elem_of_nil.
  intros [-> | [-> | [-> | []]]]; split; reflexivity.
Qed.

Lemma getImageModels_fallback (cache : ModelsCache) (world : World) (options : Options) e :
  isCacheValid cache (clockAtCheck world) = false ->
  fetchModelsFromAPI world = Throw e ->
  getImageModels cache world options
  = (Normal (applyReferenceFilter options fallbackModels), cache).
Proof. intros Hstale Hthrow. unfold getImageModels. by rewrite Hstale, Hthrow. Qed.

(** C7 (as the code has it).  With a stale or absent cache and a fetch that throws,
    [getImageModels] completes normally: it resolves to the built-in
    fallback list, which has three models, and returns it (as it is on an
    unfiltered read, through the reference filter otherwise); the error does
    not reach the caller and the cache is left as it was, so the fallback
    is not stored in it. *)
Theorem getImageModels_falls_back
    (cache : ModelsCache) (world : World) (options : Options) (e : JsError) :
  isCacheValid cache (clockAtCheck world) = false ->
  fetchModelsFromAPI world = Throw e ->
  (getImageModels cache world options).1
  = Normal (applyReferenceFilter options fallbackModels)
  /\ (unfiltered options -> (getImageModels cache world options).1 = Normal fallbackModels)
  /\ fallbackModels <> [] /\ length fallbackModels = 3%nat
  /\ (forall e', (getImageModels cache world options).1 <> Throw e')
  /\ (getImageModels cache world options).2 = cache.
Proof.
  intros Hstale Hthrow. rewrite (getImageModels_fallback _ _ _ e Hstale Hthrow). simpl.
  split; [done|]. split; [|done].
  unfold unfiltered, applyReferenceFilter.
  destruct (referenceImageCount options) as [count|]; [|done].
  intros Hzero. apply Qeq_bool_iff in Hzero. by rewrite Hzero.
Qed.

(** The first read of a fresh service whose fetch fails. *)
Lemma getImageModels_falls_back_witness :
  let world := {| clockAtCheck := 1700000000000;
                  fetchModelsFromAPI := Throw (Error "fetch failed");
                  clockAtStore := 1700000000500 |} in
  (getImageModels initialCache world {| referenceImageCount := None |}).1
  = Normal fallbackModels
  /\ (getImageModels initialCache world {| referenceImageCount := None |}).2 = initialCache.
Proof.
  intros world.
  pose proof (getImageModels_falls_back initialCache world
                {| referenceImageCount := None |} (Error "fetch failed")
                eq_refl eq_refl) as (_ & Hunfiltered & _ & _ & _ & Hcache).
  split; [exact (Hunfiltered I) | exact Hcache].
Defined.

(** A filtered read against the failing fetch: the caller gets the empty
    list, not the fallback list. *)
Lemma getImageModels_fallback_single_reference_read :
  let world := {| clockAtCheck := 1700000000000;
                  fetchModelsFromAPI := Throw (Error "fetch failed");
                  clockAtStore := 1700000000500 |} in
  isCacheValid initialCache (clockAtCheck world) = false
  /\ (getImageModels initialCache world {| referenceImageCount := Some 1%Q |}).1 = Normal []
  /\ (getImageModels initialCache world {| referenceImageCount := Some 1%Q |}).1
     <> Normal fallbackModels.
Proof. repeat split; by vm_compute. Qed.

(** C10.  Every fallback model declares both reference flags false, so
    when the fetch fails a read with [referenceImageCount] of 1 or more
    returns the empty list; the fallback list comes back whole only on
    reads that ask for no reference support. *)
Theorem getImageModels_fallback_filtered_empty
    (cache : ModelsCache) (world : World) (e : JsError) (count : Q) :
  isCacheValid cache (clockAtCheck world) = false ->
  fetchModelsFromAPI world = Throw e ->
  (1 <= count)%Q ->
  (forall m, m ∈ fallbackModels ->
             Service.supportsSingleReference (capabilities m) = false
             /\ Service.supportsMultipleReferences (capabilities m) = false)
  /\ (getImageModels cache world {| referenceImageCount := Some count |}).1 = Normal []
  /\ (getImageModels cache world {| referenceImageCount := None |}).1 = Normal fallbackModels
  /\ (getImageModels cache world {| referenceImageCount := Some 0%Q |}).1 = Normal fallbackModels.
Proof.
  intros Hstale Hthrow Hcount.
  rewrite !(getImageModels_fallback _ _ _ e Hstale Hthrow). simpl.
  split; [exact fallbackModels_capabilities|]. split; [|done].
  unfold applyReferenceFilter. simpl.
  destruct (Qeq_bool count 0) eqn:Hzero.
  { apply Qeq_bool_iff in Hzero. rewrite Hzero in Hcount. by apply Qle_bool_iff in Hcount. }
  destruct (Qeq_bool count 1) eqn:Hone; [reflexivity|].
  destruct (Qle_bool count 1) eqn:Hle; [|reflexivity].
  apply Qle_bool_iff in Hle. apply Qeq_bool_neq in Hone.
  exfalso. apply Hone. by apply Qle_antisym.
Qed.

(** Two reference images against the fallback list. *)
Lemma getImageModels_fallback_filtered_empty_witness :
  let world := {| clockAtCheck := 1700000000000;
                  fetchModelsFromAPI := Throw (Error "fetch failed");
                  clockAtStore := 1700000000500 |} in
  (getImageModels initialCache world {| referenceImageCount := Some 2%Q |}).1 = Normal [].
Proof.
  intros world.
  apply (proj1 (proj2 (getImageModels_fallback_filtered_empty initialCache world
                         (Error "fetch failed") 2%Q eq_refl eq_refl ltac:(discriminate)))).
Defined.

(** ** Doubles: the order of the comparisons *)

Ltac compare_cases :=
  repeat match goal with
         | H : context [PosDef.Pos.compare_cont Eq ?x ?y] |- _ =>
             change (PosDef.Pos.compare_cont Eq x y) with (Pos.compare x y) in H
         | |- context [PosDef.Pos.compare_cont Eq ?x ?y] =>
             change (PosDef.Pos.compare_cont Eq x y) with (Pos.compare x y)
         end;
  repeat match goal with
         | H : context [(?x ?= ?y)%Z] |- _ => destruct (Z.compare_spec x y)
         | |- context [(?x ?= ?y)%Z] => destruct (Z.compare_spec x y)
         | H : context [(?x ?= ?y)%positive] |- _ => destruct (Pos.compare_spec x y)
         | |- context [(?x ?= ?y)%positive] => destruct (Pos.compare_spec x y)
         end;
  simpl in *; subst; try done; try lia.

Ltac float_cases a b :=
  destruct a as [?s|?s| |?s ?m ?e], b as [?s|?s| |?s ?m ?e]; simpl; try done;
  repeat match goal with s : bool |- _ => destruct s end; try done; compare_cases.

Lemma SFltb_asym (a b : spec_float) : SFltb a b = true -> SFltb b a = false.
Proof. unfold SFltb. float_cases a b. Qed.

Lemma SFltb_negative_trans (a b c : spec_float) :
  b <> S754_nan -> SFltb a b = false -> SFltb b c = false -> SFltb a c = false.
Proof.
  unfold SFltb. intros Hb.
  destruct a as [sa|sa| |sa ma ea], b as [sb|sb| |sb mb eb], c as [sc|sc| |sc mc ec];
    simpl; try done;
    repeat match goal with s : bool |- _ => destruct s end; try done; compare_cases.
Qed.

Lemma SFeqb_not_ltb (a b : spec_float) : SFeqb a b = true -> SFltb a b = false.
Proof. unfold SFeqb, SFltb. by destruct (SFcompare a b) as [[]|]. Qed.

Lemma SFeqb_sym (a b : spec_float) : SFeqb a b = true -> SFeqb b a = true.
Proof. unfold SFeqb. float_cases a b. Qed.

Lemma SFeqb_total (a b : spec_float) :
  a <> S754_nan -> b <> S754_nan ->
  SFltb a b = false -> SFltb b a = false -> SFeqb a b = true.
Proof. unfold SFeqb, SFltb. intros Ha Hb. float_cases a b. Qed.

Lemma SFeqb_numbers (a b : spec_float) : SFeqb a b = true -> b <> S754_nan.
Proof. unfold SFeqb. by destruct a, b. Qed.

Lemma SFeqb_refl (a : spec_float) : a <> S754_nan -> SFeqb a a = true.
Proof.
  unfold SFeqb. intros Ha. destruct a as [s|s| |s m e]; simpl; try done;
    destruct s; try done; by rewrite Z.compare_refl, Pos.compare_cont_refl.
Qed.

Lemma numeric_spec (x : float) : numeric x <-> Prim2SF x <> S754_nan.
Proof.
  unfold numeric, PrimFloat.is_nan. rewrite FloatAxioms.eqb_spec. split.
  - intros Hx Hnan. rewrite Hnan in Hx. discriminate.
  - intros Hx. by rewrite SFeqb_refl.
Qed.

Lemma double_ltb_asym (x y : float) : PrimFloat.ltb x y = true -> PrimFloat.ltb y x = false.
Proof. rewrite !FloatAxioms.ltb_spec. apply SFltb_asym. Qed.

Lemma double_ltb_irrefl (x : float) : PrimFloat.ltb x x = false.
Proof.
  destruct (PrimFloat.ltb x x) eqn:Hx; [|done]. by rewrite (double_ltb_asym _ _ Hx) in Hx.
Qed.

Lemma double_ltb_negative_trans (x y z : float) :
  numeric y -> PrimFloat.ltb x y = false -> PrimFloat.ltb y z = false ->
  PrimFloat.ltb x z = false.
Proof.
  intros Hy. rewrite !FloatAxioms.ltb_spec. by apply SFltb_negative_trans, numeric_spec.
Qed.

Lemma double_eqb_refl (x : float) : numeric x -> PrimFloat.eqb x x = true.
Proof. unfold numeric, PrimFloat.is_nan. by intros ->%negb_false_iff. Qed.

Lemma double_eqb_sym (x y : float) : PrimFloat.eqb x y = true -> PrimFloat.eqb y x = true.
Proof. rewrite !FloatAxioms.eqb_spec. apply SFeqb_sym. Qed.

Lemma double_eqb_not_ltb (x y : float) : PrimFloat.eqb x y = true -> PrimFloat.ltb x y = false.
Proof. rewrite FloatAxioms.eqb_spec, FloatAxioms.ltb_spec. apply SFeqb_not_ltb. Qed.

Lemma double_eqb_numeric (x y : float) : PrimFloat.eqb x y = true -> numeric y.
Proof. rewrite FloatAxioms.eqb_spec, numeric_spec. apply SFeqb_numbers. Qed.

Lemma double_eqb_total (x y : float) :
  numeric x -> numeric y ->
  PrimFloat.ltb x y = false -> PrimFloat.ltb y x = false -> PrimFloat.eqb x y = true.
Proof.
  intros Hx Hy. rewrite FloatAxioms.eqb_spec, !FloatAxioms.ltb_spec.
  by apply SFeqb_total; apply numeric_spec.
Qed.

(** Two doubles equal to a third are not below one another. *)
Lemma double_eqb_tie (x y q : float) :
  PrimFloat.eqb x q = true -> PrimFloat.eqb y q = true -> PrimFloat.ltb x y = false.
Proof.
  intros Hx Hy. apply (double_ltb_negative_trans x q y).
  - by apply (double_eqb_numeric x).
  - by apply double_eqb_not_ltb.
  - by apply double_eqb_not_ltb, double_eqb_sym.
Qed.

(** ** Scoring *)

Section ScoringProperties.

Import Filter.

Variable toLowerCase : string -> string.
Variable log10 : float -> float.
Variable stringifySummary : Model -> string.

Local Abbreviation contains := (containsCI toLowerCase).
Local Abbreviation overlaps := (overlaps toLowerCase).
Local Abbreviation matchedStyles := (matchedStyles toLowerCase).
Local Abbreviation matchesPreferred := (matchesPreferred toLowerCase).
Local Abbreviation styleStep := (styleStep toLowerCase).
Local Abbreviation preferredModelStep := (preferredModelStep toLowerCase).
Local Abbreviation scoreModel := (scoreModel toLowerCase log10 stringifySummary).
Local Abbreviation beforeStyle := (beforeStyle toLowerCase log10).
Local Abbreviation afterStyle := (afterStyle toLowerCase stringifySummary).

Lemma overlaps_containsCI a b :
  overlaps a b = true <-> contains a b \/ contains b a.
Proof.
  unfold Filter.overlaps, containsCI.
  by rewrite orb_true_iff, !includes_substring.
Qed.

Lemma matchedStyles_elem m r reqStyle :
  reqStyle ∈ matchedStyles m r <->
  reqStyle ∈ styleFocus r
  /\ exists modelStyle, modelStyle ∈ modelStyles m
                        /\ (contains modelStyle reqStyle \/ contains reqStyle modelStyle).
Proof.
  unfold Filter.matchedStyles. rewrite !list_elem_of_In, filter_In, existsb_exists.
  split.
  - intros [Hin [modelStyle [Hm Ho]]]. split; [done|]. exists modelStyle.
    rewrite list_elem_of_In. split; [done|]. by apply overlaps_containsCI.
  - intros [Hin [modelStyle [Hm Ho]]]. split; [done|]. exists modelStyle.
    rewrite <- list_elem_of_In. split; [done|]. by apply overlaps_containsCI.
Qed.

Lemma length_pos_nonempty {A} (l : list A) : (0 < length l)%nat <-> l <> [].
Proof. destruct l; simpl; split; try done; lia. Qed.

(** What the style block does to the accumulators it finds. *)
Lemma styleStep_cases m r st :
  styleFocus r <> [] ->
  styleStep m r st
  = if bool_decide (modelStyles m = []) then st
    else if bool_decide (matchedStyles m r = [])
         then push "Style mismatch" (sub 10 st)
         else push ("Matches style: " +:+ String.concat ", " (matchedStyles m r))
                (add (PrimFloat.mul (numberOfZ (Z.of_nat (length (matchedStyles m r)))) 15)
                     st).
Proof.
  intros Hfocus. unfold Filter.styleStep.
  rewrite (bool_decide_eq_true_2 _ (proj2 (length_pos_nonempty _) Hfocus)).
  repeat case_bool_decide;
    repeat match goal with
           | H : (0 < length _)%nat |- _ => apply length_pos_nonempty in H
           | H : ~ (0 < length _)%nat |- _ => rewrite length_pos_nonempty in H
           end; try done; exfalso; tauto.
Qed.

(** C3 (as the code has it).  With a non-empty [styleFocus], a requested
    style counts when it and some entry of the model's [styleStrengths]
    contain one another, letter case aside.  The style block adds 15 times
    the number of styles that count to the score it finds, takes 10 off
    when the model declares style strengths and none counts, and leaves
    the score alone when the model declares none; the score it finds is
    the one the blocks before it left, and the blocks after it run as
    they do without a style request. *)
Theorem scoreModel_style_contribution m r :
  styleFocus r <> [] ->
  (forall reqStyle,
      reqStyle ∈ matchedStyles m r <->
      reqStyle ∈ styleFocus r
      /\ exists modelStyle, modelStyle ∈ modelStyles m
                            /\ (contains modelStyle reqStyle
                                \/ contains reqStyle modelStyle))
  /\ (forall st,
         score (styleStep m r st)
         = if bool_decide (modelStyles m = []) then score st
           else if bool_decide (matchedStyles m r = [])
                then PrimFloat.sub (score st) 10
                else PrimFloat.add (score st)
                       (PrimFloat.mul
                          (numberOfZ (Z.of_nat (length (matchedStyles m r)))) 15))
  /\ scoreModel m r = afterStyle m r (styleStep m r (beforeStyle m r))
  /\ scoreModel m (withStyleFocus r []) = afterStyle m r (beforeStyle m r).
Proof.
  intros Hfocus. split; [apply matchedStyles_elem|]. split; [|done].
  intros st. rewrite (styleStep_cases m r st Hfocus). by repeat case_bool_decide.
Qed.



End ScoringProperties.

(** ** Ranking: the sort by score *)

Section SortProperties.

Import Filter.

Lemma ties_cons q y ys :
  ties q (y :: ys) = if PrimFloat.eqb (_score y) q then y :: ties q ys else ties q ys.
Proof. reflexivity. Qed.

Lemma insertByScore_ties q x l :
  ties q (insertByScore x l)
  = if PrimFloat.eqb (_score x) q then x :: ties q l else ties q l.
Proof.
  induction l as [|y ys IH]; [reflexivity|].
  change (insertByScore x (y :: ys))
    with (if PrimFloat.ltb (_score x) (_score y)
          then y :: insertByScore x ys else x :: y :: ys).
  destruct (PrimFloat.ltb (_score x) (_score y)) eqn:Hlt; [|reflexivity].
  rewrite !ties_cons, IH.
  destruct (PrimFloat.eqb (_score y) q) eqn:Hy; [|reflexivity].
  destruct (PrimFloat.eqb (_score x) q) eqn:Hx; [|reflexivity].
  by rewrite (double_eqb_tie _ _ _ Hx Hy) in Hlt.
Qed.

(** The sort is stable: elements of equal score keep their order. *)
Lemma sortByScore_ties q l : ties q (sortByScore l) = ties q l.
Proof.
  induction l as [|x l IH]; [reflexivity|].
  change (sortByScore (x :: l)) with (insertByScore x (sortByScore l)).
  rewrite insertByScore_ties, IH. reflexivity.
Qed.

Lemma insertByScore_Permutation (x : Scored) (l : list Scored) :
  insertByScore x l ≡ₚ x :: l.
Proof.
  induction l as [|y l IH]; simpl; [done|].
  destruct (PrimFloat.ltb _ _); [|done]. rewrite IH. apply Permutation_swap.
Qed.

(** The sort rearranges: it neither drops nor adds an element. *)
Lemma sortByScore_Permutation (l : list Scored) : sortByScore l ≡ₚ l.
Proof.
  induction l as [|x l IH]; [done|].
  change (sortByScore (x :: l)) with (insertByScore x (sortByScore l)).
  by rewrite insertByScore_Permutation, IH.
Qed.

Lemma sortByScore_elem x l : x ∈ sortByScore l <-> x ∈ l.
Proof. by rewrite sortByScore_Permutation. Qed.

Lemma insertByScore_Forall (P : Scored -> Prop) x l :
  P x -> Forall P l -> Forall P (insertByScore x l).
Proof.
  intros Hx Hl. induction Hl as [|y ys Hy Hys IH]; simpl.
  - by constructor.
  - destruct (PrimFloat.ltb (_score x) (_score y)); repeat constructor; done.
Qed.

Lemma insertByScore_sorted x l :
  Forall (fun y => numeric (_score y)) l ->
  StronglySorted descending l -> StronglySorted descending (insertByScore x l).
Proof.
  intros Hnumeric. induction 1 as [|y ys Hsorted IH Hall]; simpl.
  - repeat constructor.
  - apply Forall_cons in Hnumeric as [Hy Hys].
    destruct (PrimFloat.ltb (_score x) (_score y)) eqn:Hlt.
    + constructor; [by apply IH|]. apply insertByScore_Forall; [|done].
      by apply double_ltb_asym.
    + constructor; [by constructor|].
      constructor; [done|].
      eapply Forall_impl; [exact Hall|]. intros z Hz. unfold descending in *.
      by apply (double_ltb_negative_trans _ (_score y)).
Qed.

(** The sort puts scores that are numbers in descending order. *)
Lemma sortByScore_sorted l :
  Forall (fun y => numeric (_score y)) l -> StronglySorted descending (sortByScore l).
Proof.
  induction 1 as [|x l Hx Hl IH]; [constructor|].
  apply insertByScore_sorted; [|done].
  by rewrite sortByScore_Permutation.
Qed.

Lemma ties_elem q x l :
  x ∈ ties q l <-> x ∈ l /\ PrimFloat.eqb (_score x) q = true.
Proof. unfold ties. by rewrite !list_elem_of_In, filter_In. Qed.

Lemma sorted_head_max h t x :
  StronglySorted descending (h :: t) -> x ∈ h :: t ->
  PrimFloat.ltb (_score h) (_score x) = false.
Proof.
  intros Hsorted Hin. apply StronglySorted_inv in Hsorted as [_ Hall].
  apply elem_of_cons in Hin as [-> | Hin]; [apply double_ltb_irrefl|].
  rewrite Forall_forall in Hall. by apply Hall.
Qed.

(** A ranking is determined by its order of scores and the order within
    each group of equal scores: two descending lists of numbers with the
    same groups are the same list. *)
Lemma sorted_ties_unique l1 l2 :
  Forall (fun y => numeric (_score y)) l1 -> Forall (fun y => numeric (_score y)) l2 ->
  StronglySorted descending l1 -> StronglySorted descending l2 ->
  (forall q, ties q l1 = ties q l2) -> l1 = l2.
Proof.
  revert l2. induction l1 as [|a l1 IH]; intros l2 Hn1 Hn2 Hs1 Hs2 Hties.
  - destruct l2 as [|b l2]; [done|]. apply Forall_cons in Hn2 as [Hb _].
    specialize (Hties (_score b)). rewrite ties_cons, (double_eqb_refl _ Hb) in Hties.
    discriminate.
  - apply Forall_cons in Hn1 as [Ha Hn1]. destruct l2 as [|b l2].
    { specialize (Hties (_score a)). rewrite ties_cons, (double_eqb_refl _ Ha) in Hties.
      discriminate. }
    apply Forall_cons in Hn2 as [Hb Hn2].
    assert (a ∈ b :: l2) as Hain.
    { apply (ties_elem (_score a)). rewrite <- Hties. apply ties_elem.
      split; [by left | by apply double_eqb_refl]. }
    assert (b ∈ a :: l1) as Hbin.
    { apply (ties_elem (_score b)). rewrite Hties. apply ties_elem.
      split; [by left | by apply double_eqb_refl]. }
    assert (PrimFloat.eqb (_score b) (_score a) = true) as Hba.
    { apply double_eqb_total; [done | done | by eapply sorted_head_max
                        | by eapply sorted_head_max]. }
    pose proof (Hties (_score a)) as Hhead.
    rewrite !ties_cons, (double_eqb_refl _ Ha), Hba in Hhead.
    injection Hhead as -> Htail.
    f_equal. apply IH; try done.
    + by apply StronglySorted_inv in Hs1 as [? _].
    + by apply StronglySorted_inv in Hs2 as [? _].
    + intros q. specialize (Hties q). rewrite !ties_cons in Hties.
      destruct (PrimFloat.eqb (_score b) q); [by injection Hties | done].
Qed.



End SortProperties.

(** ** Filtering and ranking *)

Section RankingProperties.

Import Filter.

Variable toLowerCase : string -> string.
Variable log10 : float -> float.
Variable stringifySummary : Model -> string.

Local Abbreviation contains := (containsCI toLowerCase).
Local Abbreviation matchesPreferred := (matchesPreferred toLowerCase).
Local Abbreviation preferredModelStep := (preferredModelStep toLowerCase).
Local Abbreviation scoreModel := (scoreModel toLowerCase log10 stringifySummary).
Local Abbreviation scoreOne := (scoreOne toLowerCase log10 stringifySummary).
Local Abbreviation filterAndScoreModels :=
  (filterAndScoreModels toLowerCase log10 stringifySummary).
Local Abbreviation scoredSurvivors :=
  (scoredSurvivors toLowerCase log10 stringifySummary).

Lemma filterAndScoreModels_ranked allModels r limit :
  filterAndScoreModels allModels r limit
  = List.map model (sliceTo limit (sortByScore (scoredSurvivors allModels r))).
Proof.
  unfold Filter.filterAndScoreModels, scoredSurvivors.
  case_bool_decide as Hempty; [|done].
  apply nil_length_inv in Hempty. subst. unfold sliceTo. simpl.
  destruct (_ <? _)%Z; by rewrite take_nil.
Qed.

Lemma sliceTo_elem {A} (limit : Z) (l : list A) x : x ∈ sliceTo limit l -> x ∈ l.
Proof.
  unfold sliceTo. destruct (limit <? 0)%Z; apply subseteq_take.
Qed.

Lemma scoredSurvivors_elem allModels r s :
  s ∈ scoredSurvivors allModels r <->
  exists m, s = scoreOne r m /\ m ∈ allModels /\ passesHardFilters r m = true.
Proof.
  unfold scoredSurvivors. rewrite list_elem_of_In, in_map_iff. split.
  - intros [m [<- Hm]]. apply filter_In in Hm as [Hin Hpass].
    exists m. by rewrite list_elem_of_In.
  - intros [m [-> [Hin Hpass]]]. exists m. split; [done|].
    apply filter_In. by rewrite <- list_elem_of_In.
Qed.

(** Only models of the catalog that pass the three hard filters are
    returned. *)
Lemma filterAndScoreModels_elem allModels r limit m :
  m ∈ filterAndScoreModels allModels r limit ->
  m ∈ allModels /\ passesHardFilters r m = true.
Proof.
  rewrite filterAndScoreModels_ranked, list_elem_of_In, in_map_iff.
  intros [s [<- Hs]]. apply list_elem_of_In in Hs. apply sliceTo_elem in Hs.
  rewrite sortByScore_elem in Hs.
  apply scoredSurvivors_elem in Hs as [m [-> Hm]]. exact Hm.
Qed.

(** C2 (as the code has it).  With [aspectRatio] set, the aspect-ratio
    filter drops a model exactly when the model carries a
    [supportedAspectRatios] list, empty or not, that holds neither "custom"
    nor the requested ratio; a model without the field passes; and a
    model the filter drops is in no result of [filterAndScoreModels]. *)
Theorem aspect_ratio_filter_drops_iff (m : Model) (r : Requirements) (ratio : string) :
  aspectRatio r = Some ratio -> ratio <> "" ->
  (passesAspectRatioFilter r m = false <->
   exists supported,
     supportedAspectRatios (capabilities m) = Some supported
     /\ ~ In (JStr "custom") supported
     /\ ~ In (JStr ratio) supported)
  /\ (supportedAspectRatios (capabilities m) = None -> passesAspectRatioFilter r m = true)
  /\ (passesAspectRatioFilter r m = false ->
      forall allModels limit, m ∉ filterAndScoreModels allModels r limit).
Proof.
  intros Hratio Hne. unfold passesAspectRatioFilter, given. rewrite Hratio.
  apply String.eqb_neq in Hne. rewrite Hne. simpl.
  split; [|split].
  - destruct (supportedAspectRatios (capabilities m)) as [supported|].
    + rewrite negb_false_iff, andb_true_iff, !negb_true_iff.
      rewrite <- !not_true_iff_false, !arrayIncludesStr_In. split.
      * intros [? ?]. by exists supported.
      * intros [? [[= <-] [? ?]]]. done.
    + split; [done | intros [? [? _]]; done].
  - by intros ->.
  - intros Hdrop allModels limit Hin.
    apply filterAndScoreModels_elem in Hin as [_ Hpass].
    unfold passesHardFilters, passesAspectRatioFilter, given in Hpass.
    rewrite Hratio, Hne in Hpass. simpl in Hpass.
    apply andb_true_iff in Hpass as [_ Hpass]. congruence.
Qed.




(** C9.  The result of [filterAndScoreModels] is the first [limit]
    models of the ranking of the scored survivors.  When no score is
    [NaN], the ranking is a rearrangement of the scored survivors in
    descending order of score that keeps models of equal score in catalog
    order, and it is the only one: any two rearrangements with these
    properties are the same list, so every run of a stable sort returns
    the same models with the same scores in the same order. *)
Theorem filterAndScoreModels_deterministic
    (allModels : list Model) (r : Requirements) (limit : Z) :
  (forall m, m ∈ allModels -> passesHardFilters r m = true ->
             numeric (score (scoreModel m r))) ->
  let scored := scoredSurvivors allModels r in
  let ranked := sortByScore scored in
  let stable (l : list Scored) :=
    l ≡ₚ scored /\ StronglySorted descending l /\ forall q, ties q l = ties q scored in
  filterAndScoreModels allModels r limit = List.map model (sliceTo limit ranked)
  /\ stable ranked
  /\ (forall ranked1 ranked2, stable ranked1 -> stable ranked2 -> ranked1 = ranked2).
Proof.
  intros Hnumeric scored ranked stable.
  assert (Forall (fun s => numeric (_score s)) scored) as Hscored.
  { apply Forall_forall. intros s Hs.
    apply scoredSurvivors_elem in Hs as (m & -> & Hin & Hpass). by apply Hnumeric. }
  split; [apply filterAndScoreModels_ranked|]. split.
  - split; [apply sortByScore_Permutation|].
    split; [by apply sortByScore_sorted | intros q; apply sortByScore_ties].
  - intros ranked1 ranked2 (Hperm1 & Hsorted1 & Hties1) (Hperm2 & Hsorted2 & Hties2).
    apply sorted_ties_unique; try done.
    + by rewrite Hperm1.
    + by rewrite Hperm2.
    + intros q. by rewrite Hties1, Hties2.
Qed.

End RankingProperties.

(** ** The runtime's part, and evaluation on concrete catalogs *)

Section RuntimeFunctions.

Import Filter.

(** [scoreModel] reads [Math.log10] at [model.runCount || 1] only. *)
Lemma scoreModel_log10_at_runCount toLowerCase (log10 log10' : float -> float)
    stringifySummary m r :
  log10 (runCountOrOne m) = log10' (runCountOrOne m) ->
  scoreModel toLowerCase log10 stringifySummary m r
  = scoreModel toLowerCase log10' stringifySummary m r.
Proof.
  intros Hx. unfold scoreModel, popularityStep, popularityScore. by rewrite Hx.
Qed.

(** [JSON.stringify] is not called when [specialNeeds] is empty. *)
Lemma scoreModel_stringify_unread toLowerCase log10
    (stringifySummary stringifySummary' : Model -> string) m r :
  specialNeeds r = [] ->
  scoreModel toLowerCase log10 stringifySummary m r
  = scoreModel toLowerCase log10 stringifySummary' m r.
Proof.
  intros Hnone. unfold scoreModel, specialNeedsStep. by rewrite Hnone.
Qed.

(** [toLowerCase] is not called when the request names no model, no
    style, no use case and no special need. *)
Lemma scoreModel_folding_unread (toLowerCase toLowerCase' : string -> string) log10
    stringifySummary m r :
  preferredModel r = None -> styleFocus r = [] -> useCase r = None ->
  specialNeeds r = [] ->
  scoreModel toLowerCase log10 stringifySummary m r
  = scoreModel toLowerCase' log10 stringifySummary m r.
Proof.
  intros Hpreferred Hstyles Huse Hneeds.
  unfold scoreModel, preferredModelStep, styleStep, bestForStep, specialNeedsStep,
    notGoodForStep.
  by rewrite Hpreferred, Hstyles, Huse, Hneeds.
Qed.

End RuntimeFunctions.

(** The catalogs evaluated below hold ASCII strings, which
    [String.prototype.toLowerCase] folds as [toLowerCase] does, and run
    counts at which [log10AtPowersOfTen] is the logarithm. *)

(** A model with an empty [supportedAspectRatios] list is dropped as soon
    as an aspect ratio is requested. *)
Lemma empty_ratio_list_is_dropped :
  Filter.supportedAspectRatios (Filter.capabilities bareModel) = Some []
  /\ Filter.passesAspectRatioFilter (wantsRatio "16:9") bareModel = false
  /\ Filter.filterAndScoreModels toLowerCase log10AtPowersOfTen summaryTextUnread
       [bareModel] (wantsRatio "16:9") 5 = []
  /\ Filter.filterAndScoreModels toLowerCase log10AtPowersOfTen summaryTextUnread
       [bareModel] Filter.noRequirements 5 = [bareModel].
Proof. repeat split; by vm_compute. Qed.

(** A ratio outside a declared list. *)
Lemma aspect_ratio_filter_drops_iff_witness :
  Filter.passesAspectRatioFilter (wantsRatio "21:9") sdModel = false.
Proof.
  apply (proj1 (aspect_ratio_filter_drops_iff toLowerCase log10AtPowersOfTen
                  summaryTextUnread sdModel (wantsRatio "21:9") "21:9" eq_refl
                  ltac:(discriminate))).
  exists [JStr "1:1"; JStr "16:9"].
  split; [reflexivity|]. split; intros [H|[H|[]]]; discriminate H.
Defined.

(** A model that declares no style strengths is not charged for a style
    request it cannot match: the score is the same with and without the
    request, 10 here for the text-to-image signal. *)
Lemma no_style_strengths_no_penalty :
  Filter.styleFocus (wantsStyles ["anime"]) <> []
  /\ Filter.modelStyles bareModel = []
  /\ Filter.matchedStyles toLowerCase bareModel (wantsStyles ["anime"]) = []
  /\ Filter.score (Filter.scoreModel toLowerCase log10AtPowersOfTen summaryTextUnread
                     bareModel (wantsStyles ["anime"])) = 10%float
  /\ Filter.score (Filter.scoreModel toLowerCase log10AtPowersOfTen summaryTextUnread
                     bareModel (wantsStyles [])) = 10%float.
Proof. repeat split; by vm_compute. Qed.

(** Three requested styles, two of which the model's strengths cover: the
    block adds 30 to the 10 it finds. *)
Lemma scoreModel_style_contribution_witness :
  Filter.score
    (Filter.styleStep toLowerCase animeModel (wantsStyles ["anime"; "art"; "noir"])
       (beforeStyle toLowerCase log10AtPowersOfTen animeModel
          (wantsStyles ["anime"; "art"; "noir"])))
  = 40%float.
Proof.
  rewrite (proj1 (proj2 (scoreModel_style_contribution toLowerCase log10AtPowersOfTen
                           summaryTextUnread animeModel
                           (wantsStyles ["anime"; "art"; "noir"]) ltac:(discriminate)))).
  by vm_compute.
Defined.



(** The ranking of a catalog with a tie: the two models of equal score
    stay in catalog order behind the preferred one. *)
Lemma filterAndScoreModels_deterministic_witness :
  Filter.filterAndScoreModels toLowerCase log10AtPowersOfTen summaryTextUnread
    [bareModel; animeModel; fluxDevModel] (prefers "flux-dev" Filter.noRequirements) 5
  = [fluxDevModel; bareModel; animeModel].
Proof.
  rewrite (proj1 (filterAndScoreModels_deterministic toLowerCase log10AtPowersOfTen
                    summaryTextUnread [bareModel; animeModel; fluxDevModel]
                    (prefers "flux-dev" Filter.noRequirements) 5
                    ltac:(intros m Hin _; rewrite !elem_of_cons, elem_of_nil in Hin;
                          destruct Hin as [-> | [-> | [-> | []]]]; by vm_compute))).
  by vm_compute.
Defined.

(** ** Scenarios of the specification, evaluated *)

(** Scenario A: a prompt and a string-typed image make a text-to-image and
    image-to-image model for the routes classifier. *)
Example scenarioA_capabilities :
  Routes.detectCapabilities (Some (inputSchema scenarioAModel))
  = {| Routes.textToImage := true; Routes.imageToImage := true;
       Routes.supportsReferenceImages := true;
       Routes.supportedAspectRatios := [JStr "1:1"] |}.
Proof. by vm_compute. Qed.

(** Scenario C: a request that needs reference images against a catalog
    without any image-capable model leaves nothing. *)
Example scenarioC_no_candidates :
  Filter.filterAndScoreModels toLowerCase log10AtPowersOfTen summaryTextUnread
    [bareModel; animeModel; fluxDevModel]
    {| Filter.needsReferenceImages := true; Filter.minQuality := None;
       Filter.styleFocus := []; Filter.speedPreference := None;
       Filter.preferredModel := None; Filter.useCase := None;
       Filter.specialNeeds := []; Filter.aspectRatio := None |} 5 = [].
Proof. by vm_compute. Qed.

(** Scenario E: of three cached models one supports a single reference;
    a read with [referenceImageCount] 1 returns that one. *)
Example scenarioE_single_reference_filter :
  let single :=
    {| id := "img2img"; name := "img2img"; owner := "example";
       fullName := "example/img2img"; modelDescription := "";
       aspectRatios := [];
       capabilities := {| Service.supportsSingleReference := true;
                          Service.supportsMultipleReferences := false;
                          Service.supportsImageToImage := true |};
       strengths := []; inputSchema := inputSchema scenarioAModel |} in
  let cache := {| data := Some [fluxSchnell; single; fluxDev];
                  fetchedAt := 1700000000000; ttl := 3600000 |} in
  let world := {| clockAtCheck := 1700000060000;
                  fetchModelsFromAPI := Throw (Error "not called");
                  clockAtStore := 1700000060000 |} in
  (getImageModels cache world {| referenceImageCount := Some 1%Q |}).1 = Normal [single].
Proof. by vm_compute. Qed.

(** * Further properties *)

(** ** The cache of the models service *)

(** [getImageModels] completes normally in every state of the cache and
    for every outcome of the fetch; it never changes the time-to-live, and
    it replaces the cache only when it fetched without error. *)
Theorem getImageModels_never_throws
    (cache : ModelsCache) (world : World) (options : Options) :
  (exists models, (getImageModels cache world options).1 = Normal models)
  /\ ttl (getImageModels cache world options).2 = ttl cache
  /\ ((getImageModels cache world options).2 = cache
      \/ exists models,
           isCacheValid cache (clockAtCheck world) = false
           /\ fetchModelsFromAPI world = Normal models
           /\ (getImageModels cache world options).2
              = {| data := Some models; fetchedAt := clockAtStore world; ttl := ttl cache |}).
Proof.
  unfold getImageModels.
  destruct (isCacheValid cache (clockAtCheck world)) eqn:Hvalid; simpl.
  - split; [eauto|]. split; [done | by left].
  - destruct (fetchModelsFromAPI world) as [models|e]; simpl.
    + split; [eauto|]. split; [done|]. right. by exists models.
    + split; [eauto|]. split; [done | by left].
Qed.

(** A catalog fetched at one instant is served from the cache, without a
    look at the source, for every read less than [ttl] later; from [ttl]
    on the source is asked again, and if it fails then the fallback list
    is used although the stale catalog is still in the cache. *)
Theorem fetched_catalog_served_until_ttl
    (cache : ModelsCache) (first later : World) (options options' : Options)
    (models : list Model) :
  isCacheValid cache (clockAtCheck first) = false ->
  fetchModelsFromAPI first = Normal models ->
  let cache1 := (getImageModels cache first options).2 in
  ((clockAtCheck later - clockAtStore first < ttl cache)%Z ->
   getImageModels cache1 later options'
   = (Normal (applyReferenceFilter options' models), cache1))
  /\ ((ttl cache <= clockAtCheck later - clockAtStore first)%Z ->
      forall e, fetchModelsFromAPI later = Throw e ->
      getImageModels cache1 later options'
      = (Normal (applyReferenceFilter options' fallbackModels), cache1)
      /\ data cache1 = Some models).
Proof.
  intros Hstale Hfetch cache1.
  assert (cache1 = {| data := Some models; fetchedAt := clockAtStore first;
                      ttl := ttl cache |}) as Hcache1.
  { unfold cache1, getImageModels. by rewrite Hstale, Hfetch. }
  split.
  - intros Hfresh. unfold getImageModels, isCacheValid. rewrite Hcache1. simpl.
    by rewrite (proj2 (Z.ltb_lt _ _) Hfresh).
  - intros Hold e Hthrow. split; [|by rewrite Hcache1].
    unfold getImageModels, isCacheValid. rewrite Hcache1. simpl.
    rewrite (proj2 (Z.ltb_ge _ _) Hold). by rewrite Hthrow.
Qed.

(** A first read that fetches two models, then a read half an hour and a
    read exactly one hour later. *)
Lemma fetched_catalog_served_until_ttl_witness :
  let first := {| clockAtCheck := 1000; fetchModelsFromAPI := Normal [fluxDev; fluxSchnell];
                  clockAtStore := 1200 |} in
  let halfHour := {| clockAtCheck := 1801200; fetchModelsFromAPI := Throw (Error "down");
                     clockAtStore := 1801200 |} in
  let fullHour := {| clockAtCheck := 3601200; fetchModelsFromAPI := Throw (Error "down");
                     clockAtStore := 3601200 |} in
  let noOptions := {| referenceImageCount := None |} in
  let cache1 := (getImageModels initialCache first noOptions).2 in
  (getImageModels cache1 halfHour noOptions).1 = Normal [fluxDev; fluxSchnell]
  /\ (getImageModels cache1 fullHour noOptions).1 = Normal fallbackModels.
Proof.
  intros first halfHour fullHour noOptions cache1.
  pose proof (fetched_catalog_served_until_ttl initialCache first halfHour noOptions
                noOptions [fluxDev; fluxSchnell] eq_refl eq_refl) as [Hfresh _].
  pose proof (fetched_catalog_served_until_ttl initialCache first fullHour noOptions
                noOptions [fluxDev; fluxSchnell] eq_refl eq_refl) as [_ Hold].
  split.
  - fold cache1 in Hfresh. rewrite Hfresh; [reflexivity | simpl; lia].
  - fold cache1 in Hold.
    destruct (Hold ltac:(simpl; lia) (Error "down") eq_refl) as [-> _]. reflexivity.
Defined.

(** After [clearCache] the next read goes to the source whatever the
    clock says and whatever had been cached: it returns what the fetch
    returns, or the fallback list when the fetch throws. *)
Theorem clearCache_forces_fetch
    (cache : ModelsCache) (world : World) (options : Options) :
  ttl (clearCache cache) = ttl cache
  /\ isCacheValid (clearCache cache) (clockAtCheck world) = false
  /\ (getImageModels (clearCache cache) world options).1
     = Normal (applyReferenceFilter options
                 match fetchModelsFromAPI world with
                 | Normal models => models
                 | Throw _ => fallbackModels
                 end).
Proof.
  split; [done|]. split; [done|]. unfold getImageModels. simpl.
  by destruct (fetchModelsFromAPI world).
Qed.

(** ** The service classifier and the reference filter *)

Lemma Service_capabilities_tied (modelSchema : JsValue) (capabilities : Service.Capabilities) :
  Service.detectCapabilities modelSchema = Normal capabilities ->
  Service.supportsMultipleReferences capabilities = true ->
  Service.supportsSingleReference capabilities = true.
Proof.
  unfold Service.detectCapabilities, Service.detectBody.
  set (schema := optProp (inputSection modelSchema) "properties").
  destruct (truthy schema); [|by intros [= <-]].
  destruct (getProp schema "image") as [image|e], (getProp schema "images") as [images|e'];
    try (by intros [= <-]).
  destruct image, images; by intros [= <-].
Qed.

(** Whatever the provider schema, the service classifier completes
    normally, and its flags are tied together: support for several
    references implies support for one, and support for one is the same
    as image-to-image support. *)
Theorem Service_detectCapabilities_flags (modelSchema : JsValue) :
  exists capabilities,
    Service.detectCapabilities modelSchema = Normal capabilities
    /\ (Service.supportsMultipleReferences capabilities = true ->
        Service.supportsSingleReference capabilities = true)
    /\ Service.supportsSingleReference capabilities
       = Service.supportsImageToImage capabilities.
Proof.
  unfold Service.detectCapabilities, Service.detectBody.
  set (schema := optProp (inputSection modelSchema) "properties").
  destruct (truthy schema); [|by eexists].
  destruct (getProp schema "image") as [image|e], (getProp schema "images") as [images|e'];
    try (by eexists).
  destruct image, images; by eexists.
Qed.

(** In a catalog classified by the service classifier, and in the
    fallback list, every model a read for several references returns is
    also returned by a read for one reference. *)
Theorem multiple_reference_models_among_single (models : list Model) (count : Q) (m : Model) :
  (forall m', m' ∈ models ->
              m' ∈ fallbackModels
              \/ exists modelSchema,
                   Service.detectCapabilities modelSchema = Normal (capabilities m')) ->
  (1 < count)%Q ->
  m ∈ applyReferenceFilter {| referenceImageCount := Some count |} models ->
  m ∈ applyReferenceFilter {| referenceImageCount := Some 1%Q |} models.
Proof.
  intros Hclassified Hcount. unfold applyReferenceFilter. simpl.
  assert (Qeq_bool count 0 = false) as ->.
  { apply not_true_is_false. intros H. apply Qeq_bool_iff in H. lra. }
  assert (Qeq_bool count 1 = false) as ->.
  { apply not_true_is_false. intros H. apply Qeq_bool_iff in H. lra. }
  assert (Qle_bool count 1 = false) as ->.
  { apply not_true_is_false. intros H. apply Qle_bool_iff in H. lra. }
  simpl. rewrite !list_elem_of_filter. intros [Hmulti Hin]. split; [|done].
  destruct (Hclassified m Hin) as [Hfallback | [modelSchema Hcaps]].
  - apply fallbackModels_capabilities in Hfallback as [_ Hno]. congruence.
  - by apply (Service_capabilities_tied modelSchema).
Qed.

(** A catalog of one model classified from a schema with [images]. *)
Lemma multiple_reference_models_among_single_witness :
  let schema := JObj [("openapi_schema", JObj [("components", JObj [("schemas",
                  JObj [("Input", JObj [("properties",
                    JObj [("images", JObj [("type", JStr "array")])])])])])])] in
  let m := {| id := "multi"; name := "multi"; owner := "example";
              fullName := "example/multi"; modelDescription := "";
              aspectRatios := [];
              capabilities := {| Service.supportsSingleReference := true;
                                 Service.supportsMultipleReferences := true;
                                 Service.supportsImageToImage := true |};
              strengths := []; inputSchema := ∅ |} in
  m ∈ applyReferenceFilter {| referenceImageCount := Some 1%Q |} [m].
Proof.
  intros schema m.
  apply (multiple_reference_models_among_single [m] 3%Q m).
  - intros m' Hin. apply list_elem_of_singleton in Hin as ->. right. by exists schema.
  - reflexivity.
  - by vm_compute; left.
Defined.

(** ** Lookup of a model *)

Lemma namedBy_test modelId m :
  String.eqb (id m) modelId || String.eqb (fullName m) modelId = true <-> namedBy modelId m.
Proof. unfold namedBy. by rewrite orb_true_iff, !String.eqb_eq. Qed.

(** [getModelById] returns the first model of the catalog that the query
    names by id or by full name, and nothing exactly when no model is
    named; a query that is not a string finds nothing. *)
Theorem lookupModel_first_match (models : list Model) (modelId : JsValue) :
  (forall m,
      lookupModel models modelId = Some m <->
      exists (s : string) (before after : list Model),
        modelId = JStr s /\ models = (before ++ m :: after)%list
        /\ namedBy s m /\ forall m', m' ∈ before -> ~ namedBy s m')
  /\ (lookupModel models modelId = None <->
      forall s, modelId = JStr s -> forall m, m ∈ models -> ~ namedBy s m).
Proof.
  destruct modelId as [| |b|q|s|items|fields]; simpl;
    try (split; [intros m; split; [done | by intros (s & ? & ? & ? & _)] | done]).
  unfold findModel. induction models as [|m0 models [IHsome IHnone]]; simpl.
  - split.
    + intros m. split; [done|]. intros (s' & before & after & _ & Happ & _).
      by destruct before.
    + split; [|done]. intros _ s' _ m Hin. by apply elem_of_nil in Hin.
  - destruct (String.eqb (id m0) s || String.eqb (fullName m0) s) eqn:Htest.
    + apply namedBy_test in Htest. split.
      * intros m. split.
        -- intros [= <-]. exists s, [], models. repeat split; try done.
           intros m' Hin. by apply elem_of_nil in Hin.
        -- intros (s' & before & after & [= <-] & Happ & Hnamed & Hfirst).
           destruct before as [|b0 before]; simpl in Happ.
           ++ by injection Happ as ->.
           ++ injection Happ as <- _. exfalso. apply (Hfirst m0); [by left | done].
      * split; [done|]. intros Hnone. exfalso.
        apply (Hnone s eq_refl m0); [by left | done].
    + apply not_true_iff_false in Htest. rewrite namedBy_test in Htest. split.
      * intros m. rewrite IHsome. split.
        -- intros (s' & before & after & [= <-] & -> & Hnamed & Hfirst).
           exists s, (m0 :: before), after. repeat split; try done.
           intros m' Hin. apply elem_of_cons in Hin as [-> | Hin]; [done | by apply Hfirst].
        -- intros (s' & before & after & [= <-] & Happ & Hnamed & Hfirst).
           destruct before as [|b0 before]; simpl in Happ.
           ++ injection Happ as <- _. done.
           ++ injection Happ as <- ->. exists s, before, after. repeat split; try done.
              intros m' Hin. apply Hfirst. by right.
      * rewrite IHnone. split.
        -- intros Hnone s' [= <-] m Hin.
           apply elem_of_cons in Hin as [-> | Hin]; [done | by apply (Hnone s)].
        -- intros Hnone s' [= <-] m Hin. apply (Hnone s eq_refl). by right.
Qed.

(** ** The generation path up to the provider *)

Lemma getModelById_cached (cache : ModelsCache) (world : World) (models : list Model)
    (modelId : JsValue) :
  data cache = Some models ->
  isCacheValid cache (clockAtCheck world) = true ->
  getModelById cache world modelId = (Normal (lookupModel models modelId), cache).
Proof.
  intros Hdata Hvalid. unfold getModelById, getImageModels, cachedModels.
  by rewrite Hvalid, Hdata.
Qed.

Lemma validatePrompt_accepts (prompt : JsValue) :
  validatePrompt prompt = None <->
  exists s, prompt = JStr s /\ (3 <= codeUnits s <= 2000)%nat.
Proof.
  destruct prompt as [| |b|q|s|items|fields]; simpl;
    try (split; [done | by intros (s & ? & _)]).
  destruct (String.eqb s "") eqn:Hempty; simpl.
  - apply String.eqb_eq in Hempty as ->. split; [done|]. intros (s & [= <-] & Hlen).
    simpl in Hlen. lia.
  - destruct (codeUnits s <? 3)%nat eqn:Hshort.
    + apply Nat.ltb_lt in Hshort. split; [done|]. intros (s' & [= <-] & Hlen). lia.
    + apply Nat.ltb_ge in Hshort. destruct (2000 <? codeUnits s)%nat eqn:Hlong.
      * apply Nat.ltb_lt in Hlong. split; [done|]. intros (s' & [= <-] & Hlen). lia.
      * apply Nat.ltb_ge in Hlong. split; [|done]. intros _. by exists s.
Qed.

Lemma ratioOrSquare_idempotent (aspectRatio : option string) :
  ratioOrSquare (Some (ratioOrSquare aspectRatio)) = ratioOrSquare aspectRatio.
Proof.
  destruct aspectRatio as [r|]; simpl; [|done].
  destruct (String.eqb r "") eqn:Hr; simpl; [done | by rewrite Hr].
Qed.

Section GenerationProperties.

Variable calculate : string -> JsValue * JsValue.

(** With a catalog that stays cached during the call, a request that
    [executeGenerateImage] hands to the provider has these origins: the
    model id is a string naming a model of the catalog, on whose schema
    the references were validated; the prompt is a string of 3 to 2000
    characters that is not blank; and the model that is run, sized and
    given the references is the first model of the catalog named by the
    id of the validated one, which is the validated model itself when no
    other model answers to that id. *)
Theorem executeGenerateImage_request
    (cache : ModelsCache) (models : list Model) (world1 world2 world3 : World)
    (args : GenerateArgs) (request : Request) (cache' : ModelsCache) :
  data cache = Some models ->
  isCacheValid cache (clockAtCheck world1) = true ->
  isCacheValid cache (clockAtCheck world2) = true ->
  isCacheValid cache (clockAtCheck world3) = true ->
  executeGenerateImage calculate cache world1 world2 world3 args = (Done request, cache') ->
  let references := normalizeReferences (argReferenceImages args) in
  exists validated run binding,
    lookupModel models (argModelId args) = Some validated
    /\ (exists s, argPrompt args = JStr s /\ trim s <> ""
                  /\ (3 <= codeUnits s <= 2000)%nat)
    /\ validateReferences validated references = None
    /\ lookupModel models (JStr (id validated)) = Some run
    /\ runModel request = fullName run
    /\ bindReferences run references = Normal binding
    /\ input request
       = (let '(width, height) :=
            dimensionsOf calculate
              (dimensionSource run (ratioOrSquare (argAspectRatio args))) in
          buildInputParams (argPrompt args) width height
            (orElse (argExtraParams args) (JObj [])) (argNegativePrompt args) binding)
    /\ ((forall m, m ∈ models -> namedBy (id validated) m -> m = validated) ->
        run = validated)
    /\ cache' = cache.
Proof.
  intros Hdata Hv1 Hv2 Hv3. unfold executeGenerateImage.
  destruct (truthy (argModelId args)); simpl; [|discriminate].
  destruct (isNonBlankString (argPrompt args)) eqn:Hblank; simpl; [|discriminate].
  rewrite (getModelById_cached _ _ models _ Hdata Hv1).
  destruct (lookupModel models (argModelId args)) as [validated|] eqn:Hfound;
    [|discriminate].
  destruct (validateReferences validated _) eqn:Hrefs; [discriminate|].
  unfold generateImage.
  destruct (validatePrompt (argPrompt args)) eqn:Hprompt; [discriminate|].
  unfold getModelConfig.
  rewrite (getModelById_cached _ _ models _ Hdata Hv2).
  destruct (lookupModel models (JStr (id validated))) as [run|] eqn:Hrun; [|discriminate].
  rewrite (getModelById_cached _ _ models _ Hdata Hv3), Hrun.
  rewrite ratioOrSquare_idempotent.
  destruct (dimensionsOf _ _) as [width height] eqn:Hdims.
  destruct (bindReferences run _) as [binding|e] eqn:Hbind; [|discriminate].
  intros [= <- <-]. cbv zeta. exists validated, run, binding.
  split; [done|]. split.
  { apply validatePrompt_accepts in Hprompt as (s & Hs & Hlen). exists s.
    split; [done|]. split; [|done]. rewrite Hs in Hblank. simpl in Hblank.
    apply negb_true_iff in Hblank. by apply String.eqb_neq. }
  split; [done|]. split; [done|]. split; [done|]. split; [done|].
  split; [by rewrite Hdims|]. split; [|done].
  intros Hunique. simpl in Hrun.
  apply Hunique.
  - apply list_elem_of_In. by apply (find_some _ _ Hrun).
  - apply namedBy_test. by apply (find_some _ _ Hrun).
Qed.

End GenerationProperties.

(** A request for the fallback model "flux-dev" at 16:9, the fallback
    list being cached. *)
Lemma executeGenerateImage_request_witness :
  exists run,
    lookupModel fallbackModels (JStr "flux-dev") = Some run
    /\ runModel (fluxDevRequest) = fullName run
    /\ input fluxDevRequest !! "width" = Some (JNum 1344).
Proof.
  destruct (executeGenerateImage_request squareAtOneToOne fallbackCache fallbackModels
              quietWorld quietWorld quietWorld fluxDevArgs fluxDevRequest fallbackCache
              eq_refl eq_refl eq_refl eq_refl ltac:(by vm_compute))
    as (validated & run & binding & Hvalidated & _ & _ & Hrun & Hname & _).
  exists run. vm_compute in Hvalidated. injection Hvalidated as <-.
  split; [exact Hrun|]. split; [exact Hname | by vm_compute].
Defined.

(** Two models of different owners share the id "sdxl".  A request for
    the second by its full name is validated against the second, which
    takes several images, and then runs the first, found again by the bare
    id: the references are not passed on. *)
Example executeGenerateImage_runs_namesake :
  exists request,
    executeGenerateImage squareAtOneToOne namesakeCache quietWorld quietWorld quietWorld
      {| argModelId := JStr "beta/sdxl"; argPrompt := JStr "a red fox";
         argReferenceImages := JArr [JStr "https://a/1.png"; JStr "https://a/2.png"];
         argAspectRatio := None; argNegativePrompt := JUndefined;
         argExtraParams := JUndefined |}
    = (Done request, namesakeCache)
    /\ lookupModel namesakes (JStr "beta/sdxl") = Some sdxlBeta
    /\ runModel request = "alpha/sdxl"
    /\ input request !! "image_input" = None
    /\ input request !! "image" = None.
Proof. eexists. split; [by vm_compute|]. repeat split; by vm_compute. Qed.

(** ** Search in the catalog *)

Lemma filterC_normal {A} (callback : A -> Completion bool) (l kept : list A) :
  filterC callback l = Normal kept ->
  (forall x, x ∈ l -> exists keep, callback x = Normal keep)
  /\ kept = List.filter (fun x => match callback x with Normal true => true | _ => false end) l.
Proof.
  revert kept. induction l as [|x l IH]; intros kept; simpl.
  - intros [= <-]. split; [|done]. intros x Hx. by apply elem_of_nil in Hx.
  - destruct (callback x) as [keep|e] eqn:Hx; simpl; [|discriminate].
    destruct (filterC callback l) as [kept'|e] eqn:Hl; simpl; [|discriminate].
    intros [= <-]. destruct (IH kept' eq_refl) as [Hall ->]. split.
    + intros y Hy. apply elem_of_cons in Hy as [-> | Hy]; [eauto | by apply Hall].
    + by destruct keep.
Qed.

Lemma filterC_throws {A} (callback : A -> Completion bool) (l : list A) :
  (exists e, filterC callback l = Throw e) <->
  exists x e, x ∈ l /\ callback x = Throw e.
Proof.
  induction l as [|x l IH]; simpl.
  - split; [by intros [e ?] | intros (x & e & Hin & _); by apply elem_of_nil in Hin].
  - destruct (callback x) as [keep|e] eqn:Hx; simpl.
    + destruct (filterC callback l) as [kept|e] eqn:Hl; simpl.
      * split; [by intros [e ?]|]. intros (y & e & Hin & Hy).
        apply elem_of_cons in Hin as [-> | Hin]; [congruence|].
        destruct (proj2 IH) as [e' He']; [by exists y, e | discriminate].
      * split; [|eauto]. intros _. destruct (proj1 IH) as (y & e' & Hin & Hy); [eauto|].
        exists y, e'. split; [by right | done].
    + split; [|eauto]. intros _. exists x, e. split; [by left | done].
Qed.

Section SearchProperties.

Variable toLowerCase : string -> string.

Local Abbreviation matchesKeyword := (matchesKeyword toLowerCase).
Local Abbreviation searchModels := (searchModels toLowerCase).

(** [searchModels] throws exactly when the catalog holds an entry without
    a [tags] field whose name and description do not contain the keyword;
    when it returns, it returns the entries that contain the keyword,
    letter case aside, in the name, the description or a tag. *)
Theorem searchModels_throws_iff (models : list TaggedModel) (keyword : string) :
  let inText m :=
    includes (toLowerCase (name (entry m))) (toLowerCase keyword)
    || includes (toLowerCase (modelDescription (entry m))) (toLowerCase keyword) in
  ((exists e, searchModels models keyword = Throw e) <->
   exists m, m ∈ models /\ tags m = None /\ inText m = false)
  /\ (forall found,
         searchModels models keyword = Normal found ->
         found = List.filter
                   (fun m => inText m
                             || existsb (fun tag => includes (toLowerCase tag)
                                                      (toLowerCase keyword))
                                  (default [] (tags m)))
                   models).
Proof.
  intros inText. unfold searchModels. split.
  - rewrite filterC_throws. split.
    + intros (m & e & Hin & Hm). exists m. split; [done|].
      unfold matchesKeyword in Hm. unfold inText.
      destruct (includes (toLowerCase (name (entry m))) _); [discriminate|].
      destruct (includes (toLowerCase (modelDescription (entry m))) _); [discriminate|].
      by destruct (tags m).
    + intros (m & Hin & Htags & Htext). exists m. unfold matchesKeyword, inText in *.
      apply orb_false_iff in Htext as [-> ->]. rewrite Htags. eauto.
  - intros found Hfound. apply filterC_normal in Hfound as [_ ->].
    apply filter_ext. intros m. unfold matchesKeyword, inText.
    destruct (includes (toLowerCase (name (entry m))) _); [done|].
    destruct (includes (toLowerCase (modelDescription (entry m))) _); [done|].
    destruct (tags m) as [ts|]; simpl; [|done]. by destruct (existsb _ ts).
Qed.

(** On a catalog whose entries have no tags, as the fallback list, a
    search that returns has found every entry: a keyword that one entry
    lacks in name and description makes the search throw instead of
    leaving that entry out. *)
Theorem searchModels_without_tags (models found : list TaggedModel) (keyword : string) :
  (forall m, m ∈ models -> tags m = None) ->
  searchModels models keyword = Normal found ->
  found = models.
Proof.
  intros Hnone Hfound. unfold searchModels in Hfound.
  apply filterC_normal in Hfound as [Hall ->].
  induction models as [|m models IH]; [done|]. simpl.
  destruct (Hall m ltac:(by left)) as [keep Hkeep].
  assert (keep = true) as ->.
  { unfold matchesKeyword in Hkeep. rewrite (Hnone m ltac:(by left)) in Hkeep.
    destruct (includes (toLowerCase (name (entry m))) _); [congruence|].
    destruct (includes (toLowerCase (modelDescription (entry m))) _);
      [congruence | discriminate]. }
  rewrite Hkeep. f_equal. apply IH.
  - intros m' Hm'. apply Hnone. by right.
  - intros m' Hm'. apply Hall. by right.
Qed.

End SearchProperties.

(** The fallback list, whose strings are ASCII: every name has an "f", and
    "flux" is missing from the name and the description of the last
    entry. *)
Lemma searchModels_without_tags_witness :
  searchModels toLowerCase fallbackEntries "F" = Normal fallbackEntries
  /\ exists e, searchModels toLowerCase fallbackEntries "flux" = Throw e.
Proof.
  split.
  - assert (exists found, searchModels toLowerCase fallbackEntries "F" = Normal found)
      as [found Hfound] by (eexists; by vm_compute).
    rewrite Hfound. f_equal.
    apply (searchModels_without_tags toLowerCase fallbackEntries found "F");
      [|exact Hfound].
    intros m Hm. unfold fallbackEntries in Hm. apply list_elem_of_In, in_map_iff in Hm.
    by destruct Hm as (m0 & <- & _).
  - eexists. by vm_compute.
Defined.

(** ** Size of the image *)

Lemma ownEntry_elem key table dims :
  ownEntry key table = Some dims -> (key, dims) ∈ table.
Proof.
  induction table as [|[k d] table IH]; simpl; [done|].
  destruct (String.eqb key k) eqn:Hk.
  - apply String.eqb_eq in Hk as ->. intros [= ->]. by left.
  - intros H. right. by apply IH.
Qed.

(** For a model whose table has an entry for "1:1" and no zero in it, as
    the fallback models and every model with the default table,
    [getDimensions] never computes a size: an aspect ratio the table lacks
    gets the size of "1:1", whatever the ratio says.  (A ratio spelled like
    a member of [Object.prototype] is the exception.) *)
Theorem dimensionSource_from_table (model : Model) (aspectRatio : string) :
  inheritedMember aspectRatio = false ->
  (forall k w h, (k, (w, h)) ∈ aspectRatios model -> w <> 0%Z /\ h <> 0%Z) ->
  is_Some (ownEntry "1:1" (aspectRatios model)) ->
  exists w h,
    dimensionSource model aspectRatio = FromTable w h
    /\ (ownEntry aspectRatio (aspectRatios model) = Some (w, h)
        \/ (ownEntry aspectRatio (aspectRatios model) = None
            /\ ownEntry "1:1" (aspectRatios model) = Some (w, h))).
Proof.
  intros Hplain Hnonzero [[w1 h1] Hsquare]. unfold dimensionSource, tableSlot.
  destruct (ownEntry aspectRatio (aspectRatios model)) as [[w h]|] eqn:Hown.
  - exists w, h. destruct (Hnonzero _ _ _ (ownEntry_elem _ _ _ Hown)) as [Hw Hh].
    apply Z.eqb_neq in Hw, Hh. rewrite Hw, Hh. simpl. by split; [|left].
  - rewrite Hplain, Hsquare. exists w1, h1.
    destruct (Hnonzero _ _ _ (ownEntry_elem _ _ _ Hsquare)) as [Hw Hh].
    apply Z.eqb_neq in Hw, Hh. rewrite Hw, Hh. simpl. by split; [|right].
Qed.

(** The fallback Stable Diffusion model asked for 21:9, which its table
    does not have: the image is 512 by 512. *)
Lemma dimensionSource_from_table_witness :
  dimensionSource stableDiffusion "21:9" = FromTable 512 512.
Proof.
  destruct (dimensionSource_from_table stableDiffusion "21:9") as (w & h & Hsource & Hwhich).
  - reflexivity.
  - intros k w h Hin. simpl in Hin. rewrite !elem_of_cons, elem_of_nil in Hin.
    destruct Hin as [H | [H | [H | []]]]; injection H as _ -> ->; by split.
  - by eexists.
  - rewrite Hsource.
    destruct Hwhich as [Hown | [_ Hsquare]]; [discriminate Hown|].
    by injection Hsquare as <- <-.
Defined.

(** ** Input parameters of the provider call *)

Lemma spread_lookup (fields : list (string * JsValue)) (target : gmap string JsValue)
    (k : string) :
  spread (JObj fields) target !! k
  = if bool_decide (k ∈ fields.*1) then Some (assoc k fields) else target !! k.
Proof.
  unfold spread. simpl. induction fields as [|[k0 v0] fields IH].
  - case_bool_decide as Hin; [by apply elem_of_nil in Hin | done].
  - rewrite fmap_cons. cbn [foldr fst snd assoc].
    destruct (String.eqb k k0) eqn:Hk.
    + apply String.eqb_eq in Hk as ->. rewrite lookup_insert_eq.
      by rewrite bool_decide_eq_true_2 by (by left).
    + apply String.eqb_neq in Hk. rewrite lookup_insert_ne by done. rewrite IH.
      repeat case_bool_decide; try done.
      * exfalso. apply H0. by right.
      * exfalso. apply elem_of_cons in H0 as [-> | H0]; done.
Qed.

(** In the input of the provider call, the [extraParams] of the caller
    take precedence over the prompt, the width, the height and the number
    of outputs that [generateImage] computed, so the prompt that is sent
    need not be the one that was validated; the negative prompt and the
    reference images are assigned afterwards and cannot be replaced. *)
Theorem buildInputParams_precedence
    (prompt width height negativePrompt : JsValue)
    (fields : list (string * JsValue)) (binding : ReferenceBinding) :
  let params :=
    buildInputParams prompt width height (JObj fields) negativePrompt binding in
  (truthy negativePrompt = true -> params !! "negative_prompt" = Some negativePrompt)
  /\ (forall urls, binding = ViaImageInput urls ->
                   params !! "image_input" = Some (JArr (JStr <$> urls)))
  /\ (forall url, binding = ViaImage url -> params !! "image" = Some (JStr url))
  /\ (forall k, k ∈ ["prompt"; "width"; "height"; "num_outputs"] -> k ∈ fields.*1 ->
                params !! k = Some (assoc k fields))
  /\ ("prompt" ∉ fields.*1 -> params !! "prompt" = Some prompt).
Proof.
  intros params. unfold params, buildInputParams.
  split; [|split; [|split; [|split]]].
  - intros ->. destruct binding; by simplify_map_eq.
  - intros urls ->. by simplify_map_eq.
  - intros url ->. by simplify_map_eq.
  - intros k Hk Hin.
    assert (k <> "negative_prompt" /\ k <> "image_input" /\ k <> "image") as (? & ? & ?).
    { rewrite !elem_of_cons, elem_of_nil in Hk.
      destruct Hk as [-> | [-> | [-> | [-> | []]]]]; by repeat split. }
    destruct binding, (truthy negativePrompt);
      rewrite ?lookup_insert_ne by done; rewrite spread_lookup;
      by rewrite bool_decide_eq_true_2.
  - intros Hout.
    destruct binding, (truthy negativePrompt);
      rewrite ?lookup_insert_ne by done; rewrite spread_lookup;
      rewrite bool_decide_eq_false_2 by done; by simplify_map_eq.
Qed.

(** Extra parameters that carry a prompt, a width and a negative prompt
    of their own. *)
Lemma buildInputParams_precedence_witness :
  let params :=
    buildInputParams (JStr "a red fox") (JNum 1024) (JNum 1024)
      (JObj [("prompt", JStr "something else"); ("negative_prompt", JStr "none")])
      (JStr "blurry") NoReferences in
  params !! "prompt" = Some (JStr "something else")
  /\ params !! "negative_prompt" = Some (JStr "blurry").
Proof.
  intros params.
  pose proof (buildInputParams_precedence (JStr "a red fox") (JNum 1024) (JNum 1024)
                (JStr "blurry")
                [("prompt", JStr "something else"); ("negative_prompt", JStr "none")]
                NoReferences) as (Hnegative & _ & _ & Hextra & _).
  split.
  - apply (Hextra "prompt"); by left.
  - by apply Hnegative.
Defined.

(** ** Reference images as the caller passes them *)

Lemma trimStart_unfold (s : string) :
  trimStart s = match afterWhiteSpace s with
                | Some rest => trimStart rest
                | None => s
                end.
Proof.
  destruct s as [|c1 [|c2 [|c3 rest3]]]; [done| | |].
  - destruct (isWhiteSpace c1) eqn:H1; cbn [trimStart afterWhiteSpace]; by rewrite H1.
  - destruct (isWhiteSpace c1) eqn:H1, (isWhiteSpace2 c1 c2) eqn:H2;
      cbn [trimStart afterWhiteSpace]; by rewrite ?H1, ?H2.
  - destruct (isWhiteSpace c1) eqn:H1, (isWhiteSpace2 c1 c2) eqn:H2,
      (isWhiteSpace3 c1 c2 c3) eqn:H3;
      cbn [trimStart afterWhiteSpace]; by rewrite ?H1, ?H2, ?H3.
Qed.

Lemma allWhiteSpace_unfold (s : string) :
  allWhiteSpace s = match s with
                    | EmptyString => true
                    | _ => match afterWhiteSpace s with
                           | Some rest => allWhiteSpace rest
                           | None => false
                           end
                    end.
Proof.
  destruct s as [|c1 [|c2 [|c3 rest3]]]; [done| | |].
  - destruct (isWhiteSpace c1) eqn:H1; cbn [allWhiteSpace afterWhiteSpace]; by rewrite H1.
  - destruct (isWhiteSpace c1) eqn:H1, (isWhiteSpace2 c1 c2) eqn:H2;
      cbn [allWhiteSpace afterWhiteSpace]; by rewrite ?H1, ?H2.
  - destruct (isWhiteSpace c1) eqn:H1, (isWhiteSpace2 c1 c2) eqn:H2,
      (isWhiteSpace3 c1 c2 c3) eqn:H3;
      cbn [allWhiteSpace afterWhiteSpace andb]; by rewrite ?H1, ?H2, ?H3.
Qed.

Lemma afterWhiteSpace_shorter (s rest : string) :
  afterWhiteSpace s = Some rest -> (String.length rest < String.length s)%nat.
Proof.
  destruct s as [|c1 [|c2 [|c3 rest3]]]; cbn [afterWhiteSpace]; try done;
    repeat case_match; intros [= <-]; simpl; lia.
Qed.

(** What [trimStart] leaves does not begin with white space. *)
Lemma trimStart_head (s : string) : afterWhiteSpace (trimStart s) = None.
Proof.
  remember (String.length s) as n eqn:Hn. revert s Hn.
  induction n as [n IH] using lt_wf_ind. intros s ->.
  rewrite trimStart_unfold. destruct (afterWhiteSpace s) as [rest|] eqn:Hs; [|done].
  apply (IH (String.length rest)); [by apply afterWhiteSpace_shorter | done].
Qed.

Lemma trimStart_fixed (s : string) : afterWhiteSpace s = None -> trimStart s = s.
Proof. intros Hs. by rewrite trimStart_unfold, Hs. Qed.

Lemma trimEnd_unfold (c : ascii) (rest : string) :
  trimEnd (String c rest)
  = if allWhiteSpace (String c rest) then EmptyString else String c (trimEnd rest).
Proof. reflexivity. Qed.

(** A string that does not begin with white space is not cut down to
    nothing, and what is left of it does not begin with white space
    either. *)
Lemma trimEnd_head (s : string) :
  s <> "" -> afterWhiteSpace s = None ->
  trimEnd s <> "" /\ afterWhiteSpace (trimEnd s) = None.
Proof.
  intros Hne Hs.
  assert (forall t, t <> "" -> afterWhiteSpace t = None -> allWhiteSpace t = false) as Hvisible.
  { intros t Ht Hnone. rewrite allWhiteSpace_unfold, Hnone. by destruct t. }
  destruct s as [|c1 rest1]; [done|].
  rewrite trimEnd_unfold, (Hvisible _ Hne Hs). split; [done|].
  revert Hs. cbn [afterWhiteSpace]. destruct (isWhiteSpace c1) eqn:H1; [done|].
  destruct rest1 as [|c2 rest2]; [done|].
  rewrite trimEnd_unfold. destruct (allWhiteSpace (String c2 rest2)); [done|].
  destruct (isWhiteSpace2 c1 c2) eqn:H2; [done|].
  destruct rest2 as [|c3 rest3]; [done|].
  rewrite trimEnd_unfold. destruct (allWhiteSpace (String c3 rest3)); [done|].
  by destruct (isWhiteSpace3 c1 c2 c3) eqn:H3.
Qed.

(** What [trim] leaves, trimmed again, is not empty. *)
Lemma trim_not_blank (s : string) : trim s <> "" -> trim (trim s) <> "".
Proof.
  unfold trim. intros Hne. pose proof (trimStart_head s) as Hhead.
  assert (trimStart s <> "") as Hstart by (intros H; by rewrite H in Hne).
  destruct (trimEnd_head _ Hstart Hhead) as [_ Hend].
  rewrite (trimStart_fixed _ Hend). by apply trimEnd_head.
Qed.

(** The reference list that [executeGenerateImage] works with holds no
    blank string, and a value that is neither an array nor a string
    yields no reference at all, without an error. *)
Theorem normalizeReferences_not_blank (referenceImages : JsValue) :
  (forall url, url ∈ normalizeReferences referenceImages -> trim url <> "")
  /\ (match referenceImages with
      | JArr _ | JStr _ => True
      | _ => normalizeReferences referenceImages = []
      end).
Proof.
  split; [|destruct referenceImages as [| |[]|q| | |]; try done;
           unfold normalizeReferences; simpl; by destruct (negb _)].
  unfold normalizeReferences. destruct (truthy referenceImages);
    [|intros url Hin; by apply elem_of_nil in Hin].
  destruct referenceImages as [| |b|q|s|items|fields];
    try (intros url Hin; by apply elem_of_nil in Hin).
  - simpl. destruct (String.eqb (trim s) "") eqn:Hs; simpl;
      intros url Hin; [by apply elem_of_nil in Hin|].
    apply list_elem_of_singleton in Hin as ->. apply trim_not_blank.
    by apply String.eqb_neq.
  - induction items as [|item items IH]; simpl;
      [intros url Hin; by apply elem_of_nil in Hin|].
    destruct (isNonBlankString item) eqn:Hitem; [|exact IH].
    destruct item; try discriminate. simpl. intros url Hin.
    apply elem_of_cons in Hin as [-> | Hin]; [|by apply IH].
    simpl in Hitem. apply negb_true_iff in Hitem. by apply String.eqb_neq.
Qed.

(** ** Keyword classifiers of the model metadata *)

Lemma string_app_assoc (a b c : string) : (a +:+ b) +:+ c = a +:+ (b +:+ c).
Proof.
  induction a as [|x a IH]; [done|].
  change (String x ((a +:+ b) +:+ c) = String x (a +:+ (b +:+ c))). by rewrite IH.
Qed.

Lemma includes_app_l (a b keyword : string) :
  includes a keyword = true -> includes (a +:+ b) keyword = true.
Proof.
  rewrite !includes_substring. intros (pre & post & ->).
  exists pre, (post +:+ b). by rewrite !string_app_assoc.
Qed.

Lemma includes_app_r (a b keyword : string) :
  includes b keyword = true -> includes (a +:+ b) keyword = true.
Proof.
  rewrite !includes_substring. intros (pre & post & ->).
  exists (a +:+ pre), post. by rewrite !string_app_assoc.
Qed.

Lemma detectedStrengths_elem (meta : ModelMeta) (strength : string) :
  strength ∈ detectedStrengths meta <->
  exists keywords keyword,
    (strength, keywords) ∈ strengthMap /\ keyword ∈ keywords
    /\ includes (allText meta) keyword = true.
Proof.
  unfold detectedStrengths. rewrite list_elem_of_In, in_map_iff. split.
  - intros ([s keywords] & <- & Hin). apply filter_In in Hin as [Hin Hsome].
    apply existsb_exists in Hsome as (keyword & Hkeyword & Hincl).
    exists keywords, keyword. by rewrite !list_elem_of_In.
  - intros (keywords & keyword & Hin & Hkeyword & Hincl).
    exists (strength, keywords). split; [done|]. apply filter_In.
    split; [by apply list_elem_of_In|]. apply existsb_exists.
    exists keyword. by rewrite <- list_elem_of_In.
Qed.

Lemma detectedStrengths_sublist (meta : ModelMeta) :
  detectedStrengths meta `sublist_of` strengthMap.*1.
Proof.
  unfold detectedStrengths. generalize strengthMap.
  intros l. induction l as [|entry l IH]; simpl; [constructor|].
  destruct (existsb _ _); simpl; by constructor.
Qed.

(** [extractStrengths] never returns an empty list and never repeats a
    strength; the strengths come in the order of the keyword table, and
    "general-purpose" is returned exactly when no keyword was found, and
    then alone. *)
Theorem extractStrengths_shape (meta : ModelMeta) :
  extractStrengths meta <> []
  /\ NoDup (extractStrengths meta)
  /\ (extractStrengths meta `sublist_of` strengthMap.*1
      \/ extractStrengths meta = ["general-purpose"])
  /\ ("general-purpose" ∈ extractStrengths meta <->
      extractStrengths meta = ["general-purpose"] /\ detectedStrengths meta = []).
Proof.
  pose proof (detectedStrengths_sublist meta) as Hsub.
  assert (NoDup strengthMap.*1) as Hkeys by (apply (bool_decide_unpack _); by vm_compute).
  assert ("general-purpose" ∉ strengthMap.*1) as Hfresh by (apply (bool_decide_unpack _); by vm_compute).
  unfold extractStrengths. destruct (detectedStrengths meta) as [|s found] eqn:Hfound.
  - split; [done|]. split; [apply NoDup_singleton|]. split; [by right|].
    split; [done|]. intros _. by apply list_elem_of_singleton.
  - split; [done|]. split; [by eapply sublist_NoDup|]. split; [by left|].
    split; [|by intros [_ [=]]].
    intros Hin. exfalso. apply Hfresh. by eapply elem_of_sublist.
Qed.

Lemma string_app_nil_r (s : string) : s +:+ "" = s.
Proof.
  induction s as [|c s IH]; [done|].
  change (String c (s +:+ "") = String c s). by rewrite IH.
Qed.

Lemma includes_self (s : string) : includes s s = true.
Proof.
  apply includes_substring. exists "", "".
  change (s = s +:+ ""). by rewrite string_app_nil_r.
Qed.

Lemma includes_concat (tag : string) (tags : list string) :
  tag ∈ tags -> includes (String.concat " " tags) tag = true.
Proof.
  induction tags as [|t tags IH]; [by intros Hin; apply elem_of_nil in Hin|].
  intros Hin. destruct tags as [|t' tags].
  - apply list_elem_of_singleton in Hin as ->. apply includes_self.
  - change (String.concat " " (t :: t' :: tags))
      with (t +:+ " " +:+ String.concat " " (t' :: tags)).
    apply elem_of_cons in Hin as [-> | Hin].
    + apply includes_app_l, includes_self.
    + by apply includes_app_r, includes_app_r, IH.
Qed.

(** Whatever [isImageGenerationModel] counts as a mention of a keyword,
    in the name, the description or the tags, [extractStrengths] finds
    too.  The keywords are looked for as substrings of the lower-cased
    text, so a keyword inside a longer word counts: "pro" in "improved"
    makes the model "high-quality". *)
Theorem extractStrengths_substring
    (meta : ModelMeta) (strength keyword : string) (keywords : list string) :
  (strength, keywords) ∈ strengthMap -> keyword ∈ keywords ->
  mentions meta keyword = true ->
  strength ∈ extractStrengths meta.
Proof.
  intros Hentry Hkeyword Hfound.
  assert (strength ∈ detectedStrengths meta) as Hin.
  { apply detectedStrengths_elem. exists keywords, keyword. split; [done|]. split; [done|].
    unfold mentions in Hfound. unfold allText.
    apply orb_true_iff in Hfound as [Hfound | Htag];
      [apply orb_true_iff in Hfound as [Hname | Hdescription]|].
    - by apply includes_app_l.
    - apply includes_app_r, includes_app_r, includes_app_l. exact Hdescription.
    - do 4 apply includes_app_r. apply includes_concat.
      apply existsb_exists in Htag as (tag & Htag & Heq).
      apply String.eqb_eq in Heq as ->. by apply list_elem_of_In. }
  unfold extractStrengths. destruct (detectedStrengths meta); [|done].
  by apply elem_of_nil in Hin.
Qed.

(** An upscaler whose name has "improved" in it. *)
Lemma extractStrengths_substring_witness :
  "high-quality" ∈ extractStrengths
    {| metaName := Some "Improved Upscaler"; metaDescription := None; metaTags := None |}.
Proof.
  apply (extractStrengths_substring _ "high-quality" "pro"
           ["quality"; "detailed"; "professional"; "pro"; "hd"; "ultra"]).
  - apply (bool_decide_unpack _). by vm_compute.
  - apply (bool_decide_unpack _). by vm_compute.
  - reflexivity.
Defined.

(** ** Speed ratings between the summarizer and its readers *)

(** The summarizer is asked to rate the speed of a model as "low",
    "moderate", "good", "very-good" or "excellent".  With a rating from
    that list the speed preference of a request never changes the score,
    the inference time is "unknown" unless the rating is "moderate", and
    the cost tier is never "low". *)
Theorem prompt_speed_ratings_unread
    (m : Filter.Model) (summary : Filter.Summary) (r : Filter.Requirements)
    (st : Filter.Scoring) :
  Filter.summary m = Some summary ->
  Summaries.speedOfSummary summary ∈ Summaries.promptRatings ->
  Filter.speedStep m r st = st
  /\ Summaries.estimateInferenceTime summary
     = Summaries.Label (if String.eqb (Summaries.speedOfSummary summary) "moderate"
                        then "8-15s" else "unknown")
  /\ Summaries.estimateCostTier summary
     = (if String.eqb (Summaries.speedOfSummary summary) "moderate"
        then "medium" else "high").
Proof.
  intros Hsummary Hrating.
  assert (Filter.speedOf m = Summaries.speedOfSummary summary) as Hspeed.
  { unfold Filter.speedOf, Filter.profileOf, Summaries.speedOfSummary. by rewrite Hsummary. }
  unfold Filter.speedStep, Summaries.estimateInferenceTime, Summaries.estimateCostTier.
  rewrite Hspeed. unfold Summaries.promptRatings in Hrating.
  rewrite !elem_of_cons, elem_of_nil in Hrating.
  destruct Hrating as [-> | [-> | [-> | [-> | [-> | []]]]]];
    (split; [|by split]);
    destruct (Filter.speedPreference r) as [pref|]; try done;
    by destruct (String.eqb pref "fast"), (String.eqb pref "no").
Qed.

(** A model rated "excellent" for speed, read by a request for fast
    generation. *)
Lemma prompt_speed_ratings_unread_witness :
  Filter.speedStep ratedModel portraitRequest start = start
  /\ Summaries.estimateInferenceTime ratedExcellent = Summaries.Label "unknown"
  /\ Summaries.estimateCostTier ratedExcellent = "high".
Proof.
  apply (prompt_speed_ratings_unread ratedModel ratedExcellent portraitRequest start eq_refl).
  apply (bool_decide_unpack _). by vm_compute.
Defined.

(** ** Tags of a summary *)






Lemma addTag_elem (tag : string) (tags : list string) :
  tag ∈ Summaries.addTag tag tags.
Proof.
  unfold Summaries.addTag. case_bool_decide as Hin; [done|].
  apply elem_of_app. right. by apply list_elem_of_singleton.
Qed.

Lemma addTag_keeps (tag kept : string) (tags : list string) :
  kept ∈ tags -> kept ∈ Summaries.addTag tag tags.
Proof.
  intros Hkept. unfold Summaries.addTag. case_bool_decide; [done|].
  apply elem_of_app. by left.
Qed.



(** ** Flags of the extracted schema *)

Lemma descriptionMentions_cases (desc : JsValue) (word : string) :
  (exists b, descriptionMentions desc word = Normal b)
  \/ (exists e, descriptionMentions desc word = Throw e).
Proof. destruct (descriptionMentions desc word); eauto. Qed.

(** What the loop body gives a property it does not throw on. *)
Lemma paramInfoOf_flags (required : JsValue) (key : string) (value : JsValue) (p : ParamInfo) :
  paramInfoOf required key value = Normal p ->
  truthy (type_ p) = true
  /\ optionalForReferenceImages p = isMask p
  /\ (includes (toLowerCase key) "image" = true -> isImageInput p = true)
  /\ (includes (toLowerCase key) "mask" = true -> isMask p = true)
  /\ (format p = Some (JStr "uri") -> isImageInput p = true).
Proof.
  unfold paramInfoOf.
  destruct (getProp value "type") as [vtype|]; [|done].
  destruct (getProp value "description") as [vdesc|]; [|done].
  destruct (requiredIncludes required key) as [req|]; [|done].
  destruct (getProp value "enum") as [venum|]; [|done].
  destruct (getProp value "default") as [vdefault|]; [|done].
  destruct (getProp value "format") as [vformat|]; [|done].
  destruct (getProp value "allOf") as [vallOf|]; [|done].
  unfold mbind, Completion_bind. cbn [bindC].
  assert (truthy (orElse vtype (JStr "string")) = true) as Hdefault.
  { unfold orElse. by destruct (truthy vtype) eqn:Hvtype. }
  assert (forall ty,
             (if truthy vallOf
              then bindC (allOfTypes vallOf)
                     (fun ts => Normal match ts with
                                       | [] => orElse vtype (JStr "string")
                                       | t :: _ => t
                                       end)
              else Normal (orElse vtype (JStr "string"))) = Normal ty ->
             truthy ty = true) as Hty.
  { intros ty. destruct (truthy vallOf); [|by intros [= <-]].
    unfold allOfTypes. destruct vallOf as [| | | | |items|]; try done.
    unfold mbind, Completion_bind. cbn [bindC].
    destruct (mapItemType items) as [ts|]; [|done]. cbn [bindC].
    destruct (filter _ ts) as [|t rest] eqn:Hfilter; intros [= <-]; [done|].
    assert (t ∈ filter (fun t => truthy t = true) ts) as Hin by (rewrite Hfilter; by left).
    by apply list_elem_of_filter in Hin as [Ht _]. }
  destruct (if truthy vallOf then _ else _) as [ty|]; [|done]. cbn [bindC].
  specialize (Hty ty eq_refl).
  destruct (includes (toLowerCase key) "image") eqn:Himage;
    destruct (String.eqb (toLowerCase key) "mask") eqn:Hexact;
    destruct (includes (toLowerCase key) "mask") eqn:Hmask;
    destruct (isStr vformat "uri") eqn:Huri;
    cbn [bindC];
    repeat match goal with
           | |- context [descriptionMentions ?d ?w] =>
               destruct (descriptionMentions d w); cbn [bindC]; [|done]
           end;
    intros [= <-]; cbn [type_ isMask isImageInput optionalForReferenceImages format];
    repeat split; try done;
    destruct (truthy vformat); try done; intros [= ->]; done.
Qed.

(** The entries of the object under construction come from the entries
    of [properties] read so far. *)
Lemma extractLoop_entries (P : string -> ParamInfo -> Prop) (required : JsValue)
    (entries : list (string * JsValue)) (simplified : gmap string ParamInfo) :
  (forall key value p, (key, value) ∈ entries -> key <> "__proto__" ->
                       paramInfoOf required key value = Normal p -> P key p) ->
  (forall key p, simplified !! key = Some p -> P key p) ->
  forall key p, (extractLoop required entries simplified).1 !! key = Some p -> P key p.
Proof.
  revert simplified. induction entries as [|[k v] entries IH]; intros simplified Hbody Hsofar;
    cbn [extractLoop]; [exact Hsofar|].
  destruct (paramInfoOf required k v) as [p0|] eqn:Hp0; [|exact Hsofar].
  apply IH.
  - intros key value p Hin. apply Hbody. by right.
  - intros key p. unfold assignParam. destruct (String.eqb k "__proto__") eqn:Hproto;
      [apply Hsofar|].
    apply String.eqb_neq in Hproto.
    destruct (decide (k = key)) as [-> | Hne].
    + rewrite lookup_insert_eq. intros [= <-]. apply (Hbody key v); [by left | done | done].
    + rewrite lookup_insert_ne by done. apply Hsofar.
Qed.

(** Every entry of an extracted schema is named after a property of the
    provider schema, never "__proto__"; its type is never empty; a name
    with "image" in it or the format "uri" makes it an image input, and a
    name with "mask" in it a mask, which the validation of reference
    images then never counts: "mask_image" is no reference input. *)
Theorem extractSimplifiedSchema_flags
    (modelSchema : JsValue) (simplified : gmap string ParamInfo)
    (key : string) (p : ParamInfo) :
  extractSimplifiedSchema modelSchema = Normal simplified ->
  simplified !! key = Some p ->
  key ∈ (objectEntries (optProp (inputSection modelSchema) "properties")).*1
  /\ key <> "__proto__"
  /\ truthy (type_ p) = true
  /\ optionalForReferenceImages p = isMask p
  /\ (includes (toLowerCase key) "image" = true -> isImageInput p = true)
  /\ (format p = Some (JStr "uri") -> isImageInput p = true)
  /\ (includes (toLowerCase key) "mask" = true ->
      isMask p = true /\ (key, p) ∉ imageInputParams simplified).
Proof.
  rewrite extractSimplifiedSchema_returns. intros [= <-]. unfold extractBody.
  destruct (negb (truthy _)); cbn [fst]; [by rewrite lookup_empty|].
  revert key p.
  apply (extractLoop_entries
           (fun key p =>
              key ∈ (objectEntries (optProp (inputSection modelSchema) "properties")).*1
              /\ key <> "__proto__"
              /\ truthy (type_ p) = true
              /\ optionalForReferenceImages p = isMask p
              /\ (includes (toLowerCase key) "image" = true -> isImageInput p = true)
              /\ (format p = Some (JStr "uri") -> isImageInput p = true)
              /\ (includes (toLowerCase key) "mask" = true ->
                  isMask p = true /\ (key, p) ∉ imageInputParams _)));
    [|intros key p; by rewrite lookup_empty].
  intros key value p Hin Hproto Hp.
  apply paramInfoOf_flags in Hp as (Htype & Hoptional & Himage & Hmask & Huri).
  split; [apply list_elem_of_fmap; by exists (key, value)|].
  repeat (split; [done|]).
  intros Hname. split; [by apply Hmask|].
  rewrite imageInputParams_elem. unfold acceptsImage. intros [_ [_ Hno]].
  rewrite Hmask in Hno; done.
Qed.

(** A property "mask_image" with the format "uri": an image input and a
    mask at once. *)
Lemma extractSimplifiedSchema_flags_witness :
  isImageInput maskImageParam = true
  /\ isMask maskImageParam = true
  /\ ("mask_image", maskImageParam) ∉ imageInputParams {[ "mask_image" := maskImageParam ]}.
Proof.
  assert (extractSimplifiedSchema inpaintingSchema
          = Normal {[ "mask_image" := maskImageParam ]}) as Hextracted by (by vm_compute).
  pose proof (extractSimplifiedSchema_flags inpaintingSchema
                {[ "mask_image" := maskImageParam ]} "mask_image" maskImageParam
                Hextracted eq_refl) as (_ & _ & _ & _ & Himage & _ & Hmask).
  split; [by apply Himage|]. by apply Hmask.
Defined.

(** ** The hard filters and the score *)

(** For a model that passed the hard filters the reference block of
    [scoreModel] adds the same amount to the score it finds whatever the
    model: 30 for a request with reference images and 10 for one without.
    Its penalty of 50 is never applied to a model of the result, and
    neither is the penalty of the aspect-ratio block, which leaves the
    score alone or adds 5 or 3. *)
Theorem survivors_reference_block
    (m : Filter.Model) (r : Filter.Requirements) (st : Filter.Scoring) :
  Filter.passesHardFilters r m = true ->
  Filter.referenceStep m r st
  = (if Filter.needsReferenceImages r
     then Filter.push "Supports reference images" (Filter.add 30 st)
     else Filter.add 10 st)
  /\ (Filter.aspectRatioStep m r st = st
      \/ Filter.aspectRatioStep m r st = Filter.add 5 st
      \/ Filter.aspectRatioStep m r st = Filter.add 3 st).
Proof.
  unfold Filter.passesHardFilters, Filter.passesReferenceFilter, Filter.passesTextFilter,
    Filter.passesAspectRatioFilter, Filter.referenceStep, Filter.aspectRatioStep.
  rewrite !andb_true_iff. intros [[Hreference Htext] Hratio]. split.
  - destruct (Filter.needsReferenceImages r); simpl in *.
    + by rewrite Hreference.
    + by rewrite Htext.
  - destruct (Filter.aspectRatio r) as [ratio|]; [|by left].
    destruct (Filter.supportedAspectRatios (Filter.capabilities m)) as [supported|];
      [|by left].
    destruct (Filter.given (Some ratio)); [|by left]. simpl in Hratio.
    destruct (arrayIncludesStr supported ratio); [by right; left|].
    destruct (arrayIncludesStr supported "custom"); [by right; right | done].
Qed.

(** A model with two ratios, asked for one of them: 10 and then 5 are
    added. *)
Lemma survivors_reference_block_witness :
  Filter.referenceStep sdModel (wantsRatio "16:9") start = Filter.add 10 start
  /\ Filter.aspectRatioStep sdModel (wantsRatio "16:9") start = Filter.add 5 start.
Proof.
  split; [|reflexivity].
  apply (survivors_reference_block sdModel (wantsRatio "16:9") start). reflexivity.
Defined.

Section SurvivorProperties.

Variable toLowerCase : string -> string.
Variable log10 : float -> float.
Variable stringifySummary : Filter.Model -> string.

(** The number of models returned: the survivors of the hard filters up
    to [limit]; a negative [limit] does not give an empty result, it cuts
    that many models off the end of the ranking. *)
Theorem filterAndScoreModels_count
    (allModels : list Filter.Model) (r : Filter.Requirements) (limit : Z) :
  let survivors := Z.of_nat (length (List.filter (Filter.passesHardFilters r) allModels)) in
  Z.of_nat (length (Filter.filterAndScoreModels toLowerCase log10 stringifySummary allModels r limit))
  = (if (limit <? 0)%Z then Z.max 0 (survivors + limit) else Z.min limit survivors).
Proof.
  intros survivors. rewrite filterAndScoreModels_ranked, length_map.
  assert (Z.of_nat (length (Filter.sortByScore
                              (scoredSurvivors toLowerCase log10 stringifySummary
                                 allModels r)))
          = survivors) as Hlength.
  { rewrite sortByScore_Permutation. unfold scoredSurvivors. by rewrite length_map. }
  unfold Filter.sliceTo. destruct (limit <? 0)%Z eqn:Hneg; rewrite length_take; lia.
Qed.

(** With a [limit] of at least the number of survivors, the result is
    the survivors of the hard filters, each as often as the catalog has
    it, whatever the scores are. *)
Theorem filterAndScoreModels_complete
    (allModels : list Filter.Model) (r : Filter.Requirements) (limit : Z) :
  (Z.of_nat (length (List.filter (Filter.passesHardFilters r) allModels)) <= limit)%Z ->
  Filter.filterAndScoreModels toLowerCase log10 stringifySummary allModels r limit
  ≡ₚ List.filter (Filter.passesHardFilters r) allModels.
Proof.
  intros Hlimit. rewrite filterAndScoreModels_ranked.
  assert (length (Filter.sortByScore
                    (scoredSurvivors toLowerCase log10 stringifySummary allModels r))
          = length (List.filter (Filter.passesHardFilters r) allModels)) as Hlength.
  { rewrite sortByScore_Permutation. unfold scoredSurvivors. by rewrite length_map. }
  unfold Filter.sliceTo. destruct (limit <? 0)%Z eqn:Hneg; [lia|].
  rewrite take_ge by lia. rewrite sortByScore_Permutation. unfold scoredSurvivors.
  rewrite List.map_map. simpl. by rewrite List.map_id.
Qed.

End SurvivorProperties.

(** Three models without requirements, and room for ten. *)
Lemma filterAndScoreModels_complete_witness :
  Filter.filterAndScoreModels toLowerCase log10AtPowersOfTen summaryTextUnread
    [bareModel; animeModel; fluxDevModel] Filter.noRequirements 10
  ≡ₚ [bareModel; animeModel; fluxDevModel].
Proof.
  apply (filterAndScoreModels_complete toLowerCase log10AtPowersOfTen summaryTextUnread
           [bareModel; animeModel; fluxDevModel] Filter.noRequirements 10).
  by vm_compute.
Defined.
